(** * Inline YouTube search bot (bot.py): cursor codec and inline-query handler

    A shallow embedding of [src/bot.py].

    - Python [str] values are lists of Unicode code points and [bytes]
      values lists of octets, both carried as [Z].
    - The library functions the program calls ([str.encode], [bytes.decode],
      [base64.urlsafe_b64encode], [base64.urlsafe_b64decode], [json.dumps],
      [json.loads], [dict.get], [str.strip], [html.escape]) are written out
      after their CPython 3.11 implementations; [binascii.a2b_base64] is the
      lenient decoding loop of [Modules/binascii.c], [json.loads] the
      scanner of [Modules/_json.c].
    - A raised exception is a value ([res]); [try ... except Exception]
      is a case analysis on it.
    - The handler's effects (the call of [youtube_search], [print], the
      answer sent to Telegram) are collected in a trace of events; the
      network is a function [requests_get] the handler is given.
    - The handler is given twice.  [inline_query_handler] reads a search
      response of the documented shape through the fields the handler
      accesses, as a record with optional fields.
      [inline_query_handler_json] reads any JSON value [r.json()] can
      return, with the exceptions the accesses of lines 91-123 raise
      outside the [try].  The two agree on a body of the documented shape
      (lemma [handler_json_refines]).
    - Not modelled: the interpreter's recursion limit (a deeply nested
      payload), exceptions of [iq.answer] and of the constructors of the
      Telegram library, cancellation of the coroutine. *)

From Stdlib Require Import String Ascii DecimalString ZArith List Lia Bool.
Import ListNotations.
Local Open Scope Z_scope.

(** ** Python values *)

Definition pystr := list Z.
Definition pybytes := list Z.

(** An ASCII literal as a Python [str] (or [bytes]). *)
Definition lit (s : string) : list Z :=
  map (fun a => Z.of_N (N_of_ascii a)) (list_ascii_of_string s).

Fixpoint str_eqb (a b : pystr) : bool :=
  match a, b with
  | [], [] => true
  | x :: a', y :: b' => (x =? y) && str_eqb a' b'
  | _, _ => false
  end.

(** The exceptions the modelled operations raise.  Every one of them is a
    subclass of [Exception], so an [except Exception] clause catches each. *)
Inductive exn : Type :=
| UnicodeEncodeError
| UnicodeDecodeError
| BinasciiError
| JSONDecodeError
| ValueError
| RecursionError
| AttributeError
| KeyError
| TypeError
| RequestException
| HTTPError.

Inductive res (A : Type) : Type :=
| Ok (a : A)
| Raise (e : exn).
Arguments Ok {A} a.
Arguments Raise {A} e.

Definition bind {A B} (m : res A) (k : A -> res B) : res B :=
  match m with
  | Ok a => k a
  | Raise e => Raise e
  end.

Notation "x <- m ;; k" := (bind m (fun x => k))
  (at level 61, m at next level, right associativity).
Notation "' pat <- m ;; k" := (bind m (fun x => match x with pat => k end))
  (at level 61, pat pattern, m at next level, right associativity).

(** [try: m except Exception: h] *)
Definition try_except {A} (m : res A) (h : exn -> A) : A :=
  match m with
  | Ok a => a
  | Raise e => h e
  end.

#[local] Set Warnings "-register-all".

(** Values produced by [json.loads].  A number keeps the text it was read
    from; [dict] keeps its keys in insertion order. *)
Inductive pyval : Type :=
| PNone
| PBool (b : bool)
| PNum (lexeme : pystr)
| PStr (s : pystr)
| PList (l : list pyval)
| PDict (d : list (pystr * pyval)).

(** [d[k] = v] *)
Fixpoint dict_set (d : list (pystr * pyval)) (k : pystr) (v : pyval)
  : list (pystr * pyval) :=
  match d with
  | [] => [(k, v)]
  | (k', v') :: d' =>
      if str_eqb k' k then (k', v) :: d' else (k', v') :: dict_set d' k v
  end.

Fixpoint dict_lookup (d : list (pystr * pyval)) (k : pystr) : option pyval :=
  match d with
  | [] => None
  | (k', v') :: d' => if str_eqb k' k then Some v' else dict_lookup d' k
  end.

(** [obj.get(k)]: the default is [None]; a receiver that is not a [dict]
    has no attribute [get]. *)
Definition py_get (obj : pyval) (k : pystr) : res pyval :=
  match obj with
  | PDict d => Ok (match dict_lookup d k with Some v => v | None => PNone end)
  | _ => Raise AttributeError
  end.

(** A Python [int] as a number value. *)
Definition py_int (z : Z) : pyval :=
  PNum (lit (NilZero.string_of_int (Z.to_int z))).

(** [v == s] for a [str] [s]: only an equal [str] compares equal. *)
Definition py_eq_str (v : pyval) (s : pystr) : bool :=
  match v with
  | PStr t => str_eqb t s
  | _ => false
  end.

(** ** UTF-8: [str.encode()] and [bytes.decode()] *)

Definition is_high_surrogate (c : Z) : bool := (0xD800 <=? c) && (c <=? 0xDBFF).
Definition is_low_surrogate (c : Z) : bool := (0xDC00 <=? c) && (c <=? 0xDFFF).
Definition is_surrogate (c : Z) : bool := (0xD800 <=? c) && (c <=? 0xDFFF).

Definition utf8_encode_char (c : Z) : res pybytes :=
  if c <? 0x80 then Ok [c]
  else if c <? 0x800 then
    Ok [Z.lor 0xC0 (Z.shiftr c 6); Z.lor 0x80 (Z.land c 0x3F)]
  else if is_surrogate c then Raise UnicodeEncodeError
  else if c <? 0x10000 then
    Ok [Z.lor 0xE0 (Z.shiftr c 12);
        Z.lor 0x80 (Z.land (Z.shiftr c 6) 0x3F);
        Z.lor 0x80 (Z.land c 0x3F)]
  else
    Ok [Z.lor 0xF0 (Z.shiftr c 18);
        Z.lor 0x80 (Z.land (Z.shiftr c 12) 0x3F);
        Z.lor 0x80 (Z.land (Z.shiftr c 6) 0x3F);
        Z.lor 0x80 (Z.land c 0x3F)].

(** [s.encode()] *)
Fixpoint str_encode (s : pystr) : res pybytes :=
  match s with
  | [] => Ok []
  | c :: s' =>
      b <- utf8_encode_char c ;;
      bs <- str_encode s' ;;
      Ok (b ++ bs)
  end.

Definition in_range (lo hi b : Z) : bool := (lo <=? b) && (b <=? hi).
Definition is_cont (b : Z) : bool := in_range 0x80 0xBF b.
Definition cont_bits (b : Z) : Z := Z.land b 0x3F.

(** [b.decode()]: strict UTF-8 (no overlong forms, no surrogates, nothing
    above U+10FFFF). *)
Fixpoint bytes_decode (bs : pybytes) : res pystr :=
  match bs with
  | [] => Ok []
  | b0 :: r0 =>
      if in_range 0 0x7F b0 then
        s <- bytes_decode r0 ;; Ok (b0 :: s)
      else if in_range 0xC2 0xDF b0 then
        match r0 with
        | b1 :: r1 =>
            if is_cont b1 then
              s <- bytes_decode r1 ;;
              Ok (Z.lor (Z.shiftl (Z.land b0 0x1F) 6) (cont_bits b1) :: s)
            else Raise UnicodeDecodeError
        | _ => Raise UnicodeDecodeError
        end
      else if in_range 0xE0 0xEF b0 then
        match r0 with
        | b1 :: b2 :: r2 =>
            if in_range (if b0 =? 0xE0 then 0xA0 else 0x80)
                        (if b0 =? 0xED then 0x9F else 0xBF) b1
               && is_cont b2 then
              s <- bytes_decode r2 ;;
              Ok (Z.lor (Z.shiftl (Z.land b0 0x0F) 12)
                    (Z.lor (Z.shiftl (cont_bits b1) 6) (cont_bits b2)) :: s)
            else Raise UnicodeDecodeError
        | _ => Raise UnicodeDecodeError
        end
      else if in_range 0xF0 0xF4 b0 then
        match r0 with
        | b1 :: b2 :: b3 :: r3 =>
            if in_range (if b0 =? 0xF0 then 0x90 else 0x80)
                        (if b0 =? 0xF4 then 0x8F else 0xBF) b1
               && is_cont b2 && is_cont b3 then
              s <- bytes_decode r3 ;;
              Ok (Z.lor (Z.shiftl (Z.land b0 0x07) 18)
                    (Z.lor (Z.shiftl (cont_bits b1) 12)
                       (Z.lor (Z.shiftl (cont_bits b2) 6) (cont_bits b3))) :: s)
            else Raise UnicodeDecodeError
        | _ => Raise UnicodeDecodeError
        end
      else Raise UnicodeDecodeError
  end.

(** ** Base64: [base64.urlsafe_b64encode] and [base64.urlsafe_b64decode] *)

Definition b64_alphabet : list Z :=
  lit "ABCDEFGHIJKLMNOPQRSTUVWXYZabcdefghijklmnopqrstuvwxyz0123456789+/".

Definition table_b2a_base64 (i : Z) : Z := nth (Z.to_nat i) b64_alphabet 0.

Definition BASE64_PAD : Z := 61.

(** [binascii.b2a_base64(data, newline=False)] *)
Fixpoint b2a_base64 (data : pybytes) : pybytes :=
  match data with
  | [] => []
  | [a] =>
      [table_b2a_base64 (Z.shiftr a 2);
       table_b2a_base64 (Z.shiftl (Z.land a 0x3) 4);
       BASE64_PAD; BASE64_PAD]
  | [a; b] =>
      [table_b2a_base64 (Z.shiftr a 2);
       table_b2a_base64 (Z.lor (Z.shiftl (Z.land a 0x3) 4) (Z.shiftr b 4));
       table_b2a_base64 (Z.shiftl (Z.land b 0xF) 2);
       BASE64_PAD]
  | a :: b :: c :: rest =>
      table_b2a_base64 (Z.shiftr a 2)
      :: table_b2a_base64 (Z.lor (Z.shiftl (Z.land a 0x3) 4) (Z.shiftr b 4))
      :: table_b2a_base64 (Z.lor (Z.shiftl (Z.land b 0xF) 2) (Z.shiftr c 6))
      :: table_b2a_base64 (Z.land c 0x3F)
      :: b2a_base64 rest
  end.

(** [bytes.translate] with a table that maps [a] to [a'] and [b] to [b']. *)
Definition translate2 (a a' b b' : Z) (s : pybytes) : pybytes :=
  map (fun c => if c =? a then a' else if c =? b then b' else c) s.

(** [base64.urlsafe_b64encode(s)]: standard alphabet, then [+/] to [-_]. *)
Definition urlsafe_b64encode (s : pybytes) : pybytes :=
  translate2 43 45 47 95 (b2a_base64 s).

(** [table_a2b_base64]: the 6-bit value of an alphabet character, 64 (or
    more) for any other octet. *)
Definition table_a2b_base64 (c : Z) : Z :=
  if in_range 65 90 c then c - 65
  else if in_range 97 122 c then c - 71
  else if in_range 48 57 c then c + 4
  else if c =? 43 then 62
  else if c =? 47 then 63
  else 64.

Definition u8 (x : Z) : Z := Z.land x 0xFF.

(** [binascii.a2b_base64(data, strict_mode=False)]: the decoding loop with
    its state [quad_pos], [leftchar], [pads]; [out] holds the octets written
    so far, last first. *)
Fixpoint a2b_base64_loop (data : pybytes) (quad_pos leftchar pads : Z)
  (out : pybytes) : res pybytes :=
  match data with
  | [] =>
      if quad_pos =? 0 then Ok (rev out) else Raise BinasciiError
  | ch :: rest =>
      if ch =? BASE64_PAD then
        if 2 <=? quad_pos then
          if 4 <=? quad_pos + (pads + 1) then Ok (rev out)
          else a2b_base64_loop rest quad_pos leftchar (pads + 1) out
        else a2b_base64_loop rest quad_pos leftchar pads out
      else
        let this_ch := table_a2b_base64 ch in
        if 64 <=? this_ch then a2b_base64_loop rest quad_pos leftchar pads out
        else if quad_pos =? 0 then
          a2b_base64_loop rest 1 this_ch 0 out
        else if quad_pos =? 1 then
          a2b_base64_loop rest 2 (Z.land this_ch 0x0F) 0
            (u8 (Z.lor (Z.shiftl leftchar 2) (Z.shiftr this_ch 4)) :: out)
        else if quad_pos =? 2 then
          a2b_base64_loop rest 3 (Z.land this_ch 0x03) 0
            (u8 (Z.lor (Z.shiftl leftchar 4) (Z.shiftr this_ch 2)) :: out)
        else
          a2b_base64_loop rest 0 0 0
            (u8 (Z.lor (Z.shiftl leftchar 6) this_ch) :: out)
  end.

Definition a2b_base64 (data : pybytes) : res pybytes :=
  a2b_base64_loop data 0 0 0 [].

(** [base64.urlsafe_b64decode(s)]: [-_] to [+/], then the lenient decoder. *)
Definition urlsafe_b64decode (s : pybytes) : res pybytes :=
  a2b_base64 (translate2 45 43 95 47 s).


(** ** JSON: [json.dumps] of the cursor payload *)

Definition Py_hexdigits : list Z := lit "0123456789abcdef".
Definition hexdigit (d : Z) : Z := nth (Z.to_nat d) Py_hexdigits 0.

(** The escape [\uXXXX] of a 16-bit code unit. *)
Definition u_escape (c : Z) : pystr :=
  [92; 117;
   hexdigit (Z.land (Z.shiftr c 12) 0xF);
   hexdigit (Z.land (Z.shiftr c 8) 0xF);
   hexdigit (Z.land (Z.shiftr c 4) 0xF);
   hexdigit (Z.land c 0xF)].

Definition Py_UNICODE_HIGH_SURROGATE (c : Z) : Z :=
  0xD800 - Z.shiftr 0x10000 10 + Z.shiftr c 10.
Definition Py_UNICODE_LOW_SURROGATE (c : Z) : Z :=
  0xDC00 + Z.land c 0x3FF.
Definition Py_UNICODE_JOIN_SURROGATES (high low : Z) : Z :=
  Z.lor (Z.shiftl (Z.land high 0x3FF) 10) (Z.land low 0x3FF) + 0x10000.

(** Characters written as they are: printable ASCII but the backslash and
    the double quote. *)
Definition S_CHAR (c : Z) : bool :=
  (32 <=? c) && (c <=? 126) && negb (c =? 92) && negb (c =? 34).

Definition ascii_escape_unichar (c : Z) : pystr :=
  if c =? 92 then [92; 92]
  else if c =? 34 then [92; 34]
  else if c =? 8 then [92; 98]
  else if c =? 12 then [92; 102]
  else if c =? 10 then [92; 110]
  else if c =? 13 then [92; 114]
  else if c =? 9 then [92; 116]
  else if 0x10000 <=? c then
    u_escape (Py_UNICODE_HIGH_SURROGATE c) ++ u_escape (Py_UNICODE_LOW_SURROGATE c)
  else u_escape c.

Definition escape_char (c : Z) : pystr :=
  if S_CHAR c then [c] else ascii_escape_unichar c.

(** The body of a JSON string under [ensure_ascii=True]. *)
Fixpoint encode_basestring_ascii (s : pystr) : pystr :=
  match s with
  | [] => []
  | c :: s' => escape_char c ++ encode_basestring_ascii s'
  end.

Definition dumps_str (s : pystr) : pystr :=
  34 :: encode_basestring_ascii s ++ [34].

Definition dumps_optstr (v : option pystr) : pystr :=
  match v with
  | None => lit "null"
  | Some s => dumps_str s
  end.

(** [json.dumps({"q": query, "pageToken": page_token})] with the default
    separators [", "] and [": "]. *)
Definition json_dumps_payload (query : pystr) (page_token : option pystr) : pystr :=
  lit "{" ++ dumps_str (lit "q") ++ lit ": " ++ dumps_str query
  ++ lit ", " ++ dumps_str (lit "pageToken") ++ lit ": " ++ dumps_optstr page_token
  ++ lit "}".

(** ** JSON: [json.loads] *)

Definition IS_WHITESPACE (c : Z) : bool :=
  (c =? 32) || (c =? 9) || (c =? 10) || (c =? 13).

Fixpoint skip_whitespace (s : pystr) : pystr :=
  match s with
  | c :: r => if IS_WHITESPACE c then skip_whitespace r else s
  | [] => []
  end.

Definition hex_value (c : Z) : option Z :=
  if in_range 48 57 c then Some (c - 48)
  else if in_range 97 102 c then Some (c - 97 + 10)
  else if in_range 65 70 c then Some (c - 65 + 10)
  else None.

Definition hex_step (acc : option Z) (d : Z) : option Z :=
  match acc, hex_value d with
  | Some c, Some v => Some (Z.lor (Z.shiftl c 4) v)
  | _, _ => None
  end.

(** Four hex digits to a code unit; [None] when one is not a hex digit. *)
Definition decode_hex4 (h1 h2 h3 h4 : Z) : option Z :=
  hex_step (hex_step (hex_step (hex_step (Some 0) h1) h2) h3) h4.

Definition simple_escape (e : Z) : option Z :=
  if (e =? 34) || (e =? 92) || (e =? 47) then Some e
  else if e =? 98 then Some 8
  else if e =? 102 then Some 12
  else if e =? 110 then Some 10
  else if e =? 114 then Some 13
  else if e =? 116 then Some 9
  else None.

Definition is_nil {A} (l : list A) : bool :=
  match l with [] => true | _ => false end.

(** [scanstring] in strict mode, entered after the opening quote: the
    decoded string and the input after the closing quote. *)
Fixpoint scanstring (s : pystr) : res (pystr * pystr) :=
  match s with
  | [] => Raise JSONDecodeError
  | c :: r =>
      if c =? 34 then Ok ([], r)
      else if c =? 92 then
        match r with
        | [] => Raise JSONDecodeError
        | e :: r1 =>
            if e =? 117 then
              match r1 with
              | h1 :: h2 :: h3 :: h4 :: r2 =>
                  if is_nil r2 then Raise JSONDecodeError
                  else
                    match decode_hex4 h1 h2 h3 h4 with
                    | None => Raise JSONDecodeError
                    | Some c1 =>
                        match r2 with
                        | b :: u :: g1 :: g2 :: g3 :: g4 :: r3 =>
                            if is_high_surrogate c1 && negb (is_nil r3)
                               && (b =? 92) && (u =? 117) then
                              match decode_hex4 g1 g2 g3 g4 with
                              | None => Raise JSONDecodeError
                              | Some c2 =>
                                  if is_low_surrogate c2 then
                                    '(str, rest) <- scanstring r3 ;;
                                    Ok (Py_UNICODE_JOIN_SURROGATES c1 c2 :: str, rest)
                                  else
                                    '(str, rest) <- scanstring r2 ;;
                                    Ok (c1 :: str, rest)
                              end
                            else
                              '(str, rest) <- scanstring r2 ;;
                              Ok (c1 :: str, rest)
                        | _ =>
                            '(str, rest) <- scanstring r2 ;;
                            Ok (c1 :: str, rest)
                        end
                    end
              | _ => Raise JSONDecodeError
              end
            else
              match simple_escape e with
              | None => Raise JSONDecodeError
              | Some c1 =>
                  '(str, rest) <- scanstring r1 ;;
                  Ok (c1 :: str, rest)
              end
        end
      else if c <=? 0x1F then Raise JSONDecodeError
      else
        '(str, rest) <- scanstring r ;;
        Ok (c :: str, rest)
  end.

Definition is_digit (c : Z) : bool := in_range 48 57 c.

Fixpoint span_digits (s : pystr) : pystr * pystr :=
  match s with
  | c :: r =>
      if is_digit c then let '(ds, rest) := span_digits r in (c :: ds, rest)
      else ([], s)
  | [] => ([], [])
  end.

(** The integer part: an optional minus sign, then either a single zero or
    a non-zero digit and any digits; [None] stands for StopIteration. *)
Definition match_int (s : pystr) : option (pystr * pystr) :=
  let '(sign, s1) :=
    match s with
    | c :: r => if c =? 45 then ([45], r) else ([], s)
    | [] => ([], s)
    end in
  match s1 with
  | c :: r =>
      if in_range 49 57 c then
        let '(ds, rest) := span_digits r in Some (sign ++ c :: ds, rest)
      else if c =? 48 then Some (sign ++ [48], r)
      else None
  | [] => None
  end.

(** The fraction: a point and digits, read only when a digit follows the
    point. *)
Definition match_frac (s : pystr) : pystr * pystr :=
  match s with
  | p :: d :: r =>
      if (p =? 46) && is_digit d then
        let '(ds, rest) := span_digits r in (p :: d :: ds, rest)
      else ([], s)
  | _ => ([], s)
  end.

(** The exponent: e or E, an optional sign, digits; the scanner backtracks
    to before the e when no digit follows. *)
Definition match_exp (s : pystr) : pystr * pystr :=
  match s with
  | e :: r =>
      if (e =? 101) || (e =? 69) then
        let '(sign, r1) :=
          match r with
          | c :: (_ :: _) as r' => if (c =? 45) || (c =? 43) then ([c], r') else ([], r)
          | _ => ([], r)
          end in
        match span_digits r1 with
        | ([], _) => ([], s)
        | (ds, rest) => (e :: sign ++ ds, rest)
        end
      else ([], s)
  | [] => ([], s)
  end.

(** [sys.get_int_max_str_digits()]: the longest integer literal [int] reads. *)
Definition int_max_str_digits : nat := 4300.

Definition count_digits (s : pystr) : nat := List.length (filter is_digit s).

(** [_match_number]: the literal is read as an [int] when it has neither
    fraction nor exponent, as a [float] otherwise. *)
Definition match_number (s : pystr) : res (pyval * pystr) :=
  match match_int s with
  | None => Raise JSONDecodeError
  | Some (i, r1) =>
      let '(f, r2) := match_frac r1 in
      let '(e, r3) := match_exp r2 in
      if is_nil f && is_nil e && Nat.ltb int_max_str_digits (count_digits i)
      then Raise ValueError
      else Ok (PNum (i ++ f ++ e), r3)
  end.

(** [s] without the prefix [p], when it starts with it. *)
Fixpoint strip_prefix (p s : pystr) : option pystr :=
  match p, s with
  | [], _ => Some s
  | x :: p', y :: s' => if x =? y then strip_prefix p' s' else None
  | _ :: _, [] => None
  end.

Definition match_constant (name : pystr) (v : pyval) (s : pystr)
  : res (pyval * pystr) :=
  match strip_prefix name s with
  | Some rest => Ok (v, rest)
  | None => match_number s
  end.

(** [scan_once], [_parse_array] and [_parse_object] of the scanner.  [fuel]
    bounds the number of nested calls and loop turns; [json_loads] gives
    enough of it for every input (lemma [json_loads_fuel]), so the
    interpreter's own recursion limit is not part of the model. *)
Fixpoint scan_once (fuel : nat) (s : pystr) {struct fuel} : res (pyval * pystr) :=
  match fuel with
  | O => Raise RecursionError
  | S fuel' =>
      match s with
      | [] => Raise JSONDecodeError
      | c :: r =>
          if c =? 34 then
            '(str, rest) <- scanstring r ;; Ok (PStr str, rest)
          else if c =? 123 then
            match skip_whitespace r with
            | c' :: r' =>
                if c' =? 125 then Ok (PDict [], r')
                else parse_object_items fuel' (c' :: r') []
            | [] => Raise JSONDecodeError
            end
          else if c =? 91 then
            match skip_whitespace r with
            | c' :: r' =>
                if c' =? 93 then Ok (PList [], r')
                else parse_array_items fuel' (c' :: r') []
            | [] => Raise JSONDecodeError
            end
          else if c =? 110 then match_constant (lit "null") PNone s
          else if c =? 116 then match_constant (lit "true") (PBool true) s
          else if c =? 102 then match_constant (lit "false") (PBool false) s
          else if c =? 78 then match_constant (lit "NaN") (PNum (lit "NaN")) s
          else if c =? 73 then
            match_constant (lit "Infinity") (PNum (lit "Infinity")) s
          else if c =? 45 then
            match_constant (lit "-Infinity") (PNum (lit "-Infinity")) s
          else match_number s
      end
  end

with parse_array_items (fuel : nat) (s : pystr) (acc : list pyval) {struct fuel}
  : res (pyval * pystr) :=
  match fuel with
  | O => Raise RecursionError
  | S fuel' =>
      '(val, r) <- scan_once fuel' s ;;
      match skip_whitespace r with
      | c :: r' =>
          if c =? 93 then Ok (PList (acc ++ [val]), r')
          else if c =? 44 then
            parse_array_items fuel' (skip_whitespace r') (acc ++ [val])
          else Raise JSONDecodeError
      | [] => Raise JSONDecodeError
      end
  end

with parse_object_items (fuel : nat) (s : pystr) (acc : list (pystr * pyval))
  {struct fuel} : res (pyval * pystr) :=
  match fuel with
  | O => Raise RecursionError
  | S fuel' =>
      match s with
      | q :: r0 =>
          if q =? 34 then
            '(key, r1) <- scanstring r0 ;;
            match skip_whitespace r1 with
            | colon :: r2 =>
                if colon =? 58 then
                  '(val, r3) <- scan_once fuel' (skip_whitespace r2) ;;
                  match skip_whitespace r3 with
                  | c :: r4 =>
                      if c =? 125 then Ok (PDict (dict_set acc key val), r4)
                      else if c =? 44 then
                        parse_object_items fuel' (skip_whitespace r4)
                          (dict_set acc key val)
                      else Raise JSONDecodeError
                  | [] => Raise JSONDecodeError
                  end
                else Raise JSONDecodeError
            | [] => Raise JSONDecodeError
            end
          else Raise JSONDecodeError
      | [] => Raise JSONDecodeError
      end
  end.

Definition json_fuel (s : pystr) : nat := S (S (2 * length s)).

(** [json.loads(s)]: one value between optional white space, nothing after. *)
Definition json_loads (s : pystr) : res pyval :=
  match s with
  | 0xFEFF :: _ => Raise JSONDecodeError
  | _ =>
      '(obj, r) <- scan_once (json_fuel s) (skip_whitespace s) ;;
      if is_nil (skip_whitespace r) then Ok obj else Raise JSONDecodeError
  end.

(** ** The cursor codec *)

(** [encode_offset(query, page_token)] *)
Definition encode_offset (query : pystr) (page_token : option pystr) : res pystr :=
  let payload := json_dumps_payload query page_token in
  raw <- str_encode payload ;;
  bytes_decode (urlsafe_b64encode raw).

(** [decode_offset(offset)] *)
Definition decode_offset (offset : pystr) : pyval * pyval :=
  try_except
    (raw <- str_encode offset ;;
     bytes <- urlsafe_b64decode raw ;;
     decoded <- bytes_decode bytes ;;
     obj <- json_loads decoded ;;
     q <- py_get obj (lit "q") ;;
     t <- py_get obj (lit "pageToken") ;;
     Ok (q, t))
    (fun _ => (PNone, PNone)).

(** ** Truth values *)

Fixpoint digits_value (ds : pystr) (acc : Z) : Z :=
  match ds with
  | d :: r => digits_value r (10 * acc + (d - 48))
  | [] => acc
  end.

(** Whether a number literal denotes zero once read: an [int] is zero when
    its digits are; a [float] [D * 10^E] is rounded to the nearest double,
    which is zero exactly when [D * 10^E <= 2^-1075]. *)
Definition num_is_zero (lx : pystr) : bool :=
  match match_int lx with
  | None => false
  | Some (i, r1) =>
      let '(f, r2) := match_frac r1 in
      let '(e, _) := match_exp r2 in
      let fd := tl f in
      let D := digits_value (filter is_digit i ++ fd) 0 in
      let X :=
        match tl e with
        | c :: ds =>
            if c =? 45 then - digits_value ds 0
            else if c =? 43 then digits_value ds 0
            else digits_value (c :: ds) 0
        | [] => 0
        end in
      let E := X - Z.of_nat (List.length fd) in
      if D =? 0 then true
      else if 0 <=? E then false
      else D * 2 ^ 1075 <=? 10 ^ (- E)
  end.

(** [bool(v)] *)
Definition py_truthy (v : pyval) : bool :=
  match v with
  | PNone => false
  | PBool b => b
  | PNum lx => negb (num_is_zero lx)
  | PStr s => negb (is_nil s)
  | PList l => negb (is_nil l)
  | PDict d => negb (is_nil d)
  end.

(** ** [str.strip()] and [html.escape] *)

(** [str.isspace] on one character. *)
Definition Py_UNICODE_ISSPACE (c : Z) : bool :=
  in_range 0x09 0x0D c || in_range 0x1C 0x20 c || (c =? 0x85) || (c =? 0xA0)
  || (c =? 0x1680) || in_range 0x2000 0x200A c || (c =? 0x2028)
  || (c =? 0x2029) || (c =? 0x202F) || (c =? 0x205F) || (c =? 0x3000).

Fixpoint lstrip (s : pystr) : pystr :=
  match s with
  | c :: r => if Py_UNICODE_ISSPACE c then lstrip r else s
  | [] => []
  end.

Definition rstrip (s : pystr) : pystr := rev (lstrip (rev s)).

(** [s.strip()] *)
Definition str_strip (s : pystr) : pystr := rstrip (lstrip s).

(** [s.replace(c, rep)] for a one-character [c]. *)
Fixpoint str_replace (c : Z) (rep : pystr) (s : pystr) : pystr :=
  match s with
  | [] => []
  | x :: r => (if x =? c then rep else [x]) ++ str_replace c rep r
  end.

(** [html.escape(s)] with [quote=True]: five replacements, the ampersand
    first. *)
Definition html_escape (s : pystr) : pystr :=
  let s := str_replace 38 (lit "&amp;") s in
  let s := str_replace 60 (lit "&lt;") s in
  let s := str_replace 62 (lit "&gt;") s in
  let s := str_replace 34 (lit "&quot;") s in
  let s := str_replace 39 (lit "&#x27;") s in
  s.

(** ** The search response and the result cards *)

(** What the handler reads of a search response of the documented shape: a
    JSON object whose [items] are objects with an [id] object and a
    [snippet] object, and whose strings are strings.  A field read with
    [.get] is optional; [id] and [snippet], read with [it[...]], are not.
    These records cannot hold an item without [id], nor a value of another
    type: for such bodies see [make_result_json] and [read_page]. *)
Record Thumbnail : Type := { url : option pystr }.

Record Thumbnails : Type :=
  { medium : option Thumbnail;
    default : option Thumbnail }.

Record Snippet : Type :=
  { snippet_title : option pystr;
    channelTitle : option pystr;
    snippet_description : option pystr;
    thumbnails : option Thumbnails }.

Record ItemId : Type := { videoId : option pystr }.

Record Item : Type :=
  { item_id : ItemId;
    snippet : Snippet }.

Record SearchData : Type :=
  { items : option (list Item);
    nextPageToken : option pystr }.

(** [d.get(k, default)] on an optional field. *)
Definition get_or {A} (field : option A) (dflt : A) : A :=
  match field with
  | Some v => v
  | None => dflt
  end.

Record InputTextMessageContent : Type :=
  { message_text : pystr;
    parse_mode : pystr }.

Record InlineKeyboardButton : Type :=
  { button_text : pystr;
    button_url : pystr }.

Record InlineQueryResultArticle : Type :=
  { article_id : pystr;
    title : pystr;
    description : pystr;
    thumb_url : option pystr;
    input_message_content : InputTextMessageContent;
    reply_markup : list (list InlineKeyboardButton) }.

(** The inline query of an update: [iq.query] and [iq.offset]. *)
Record InlineQuery : Type :=
  { query : option pystr;
    offset : option pystr }.

(** The response of [requests.get]: its status and what [r.json()] gives,
    for a body that is of the documented shape when it can be parsed
    ([JsonResponse] holds any parsed body). *)
Record Response : Type :=
  { status_code : Z;
    json : res SearchData }.

(** What the handler does to the outside. *)
Inductive event : Type :=
| EvSearch (q : pystr) (page_token : pyval) (max_results : Z)
| EvPrint (e : exn)
| EvAnswer (results : list InlineQueryResultArticle) (is_personal : bool)
    (cache_time : Z) (next_offset : pystr).

(** A computation that leaves a trace of events and returns or raises. *)
Definition io (A : Type) : Type := list event * res A.

Definition io_ret {A} (a : A) : io A := ([], Ok a).

Definition io_bind {A B} (m : io A) (k : A -> io B) : io B :=
  match m with
  | (t, Ok a) => let '(t', r) := k a in (t ++ t', r)
  | (t, Raise e) => (t, Raise e)
  end.

Definition emit (ev : event) : io unit := ([ev], Ok tt).

Definition lift {A} (r : res A) : io A := ([], r).

(** [try: x = m except Exception as e: h(e) else: k(x)] *)
Definition io_try {A B} (m : io A) (k : A -> io B) (h : exn -> io B) : io B :=
  match m with
  | (t, Ok a) => let '(t', r) := k a in (t ++ t', r)
  | (t, Raise e) => let '(t', r) := h e in (t ++ t', r)
  end.

Notation "x <~ m ;; k" := (io_bind m (fun x => k))
  (at level 61, m at next level, right associativity).
Notation "m ;;; k" := (io_bind m (fun _ => k))
  (at level 61, right associativity).

Definition YOUTUBE_SEARCH_URL : pystr :=
  lit "https://www.googleapis.com/youtube/v3/search".

Definition RESULTS_PER_PAGE : Z := 10.

(** [r.raise_for_status()] *)
Definition raise_for_status (r : Response) : res unit :=
  if in_range 400 599 (status_code r) then Raise HTTPError else Ok tt.

(** [(x or "")] for an optional string. *)
Definition or_empty (x : option pystr) : pystr := get_or x [].

Section Bot.

(** The API key of the environment and the network: what
    [requests.get(url, params=params, timeout=timeout)] returns or raises. *)
Variable YOUTUBE_API_KEY : pystr.
Variable requests_get : pystr -> list (pystr * pyval) -> Z -> res Response.

(** [youtube_search(query, page_token, max_results)] *)
Definition youtube_search (q : pystr) (page_token : pyval) (max_results : Z)
  : io SearchData :=
  emit (EvSearch q page_token max_results) ;;;
  let params :=
    [(lit "part", PStr (lit "snippet"));
     (lit "q", PStr q);
     (lit "type", PStr (lit "video"));
     (lit "maxResults", py_int max_results);
     (lit "key", PStr YOUTUBE_API_KEY)] in
  let params :=
    if py_truthy page_token then dict_set params (lit "pageToken") page_token
    else params in
  r <~ lift (requests_get YOUTUBE_SEARCH_URL params 8) ;;
  lift (raise_for_status r) ;;;
  lift (json r).

(** The body of the loop over [items] for one item: the card appended to
    [results], or nothing when the item has no video id. *)
Definition make_result (it : Item) : option InlineQueryResultArticle :=
  let vid := or_empty (videoId (item_id it)) in
  if is_nil vid then None
  else
    let s := snippet it in
    let title := get_or (snippet_title s) (lit "YouTube video") in
    let channel := get_or (channelTitle s) [] in
    let desc := firstn 120 (or_empty (snippet_description s)) in
    let thumbs := get_or (thumbnails s) {| medium := None; default := None |} in
    let thumb :=
      url (get_or (medium thumbs)
             (get_or (default thumbs) {| url := None |})) in
    let url := lit "https://youtu.be/" ++ vid in
    let input_text := html_escape (title ++ [10] ++ url) in
    let input_content :=
      {| message_text := input_text; parse_mode := lit "HTML" |} in
    let kb := [[ {| button_text := lit "Open on YouTube"; button_url := url |} ]] in
    Some {| article_id := vid;
            title := title;
            description := if is_nil channel then desc else channel;
            thumb_url := thumb;
            input_message_content := input_content;
            reply_markup := kb |}.

(** [for it in items: ...] with [results] as built so far. *)
Fixpoint map_items (items : list Item) (results : list InlineQueryResultArticle)
  : list InlineQueryResultArticle :=
  match items with
  | [] => results
  | it :: rest =>
      match make_result it with
      | None => map_items rest results
      | Some card => map_items rest (results ++ [card])
      end
  end.

(** The continuation token the handler settles on before the search. *)
Definition resolve_page_token (q offset : pystr) : pyval :=
  if negb (is_nil offset) then
    let '(oq, otoken) := decode_offset offset in
    if py_eq_str oq q then otoken else PNone
  else PNone.

(** [inline_query_handler(update, context)] for the inline query [iq], on
    responses of the documented shape: reading such a body (lines 91-123)
    raises nothing.  [inline_query_handler_json] is the handler on any
    body. *)
Definition inline_query_handler (iq : InlineQuery) : io unit :=
  let q := str_strip (or_empty (query iq)) in
  let offset := or_empty (offset iq) in
  let page_token := resolve_page_token q offset in
  if is_nil q then
    emit (EvAnswer [] true 1 [])
  else
    io_try (youtube_search q page_token RESULTS_PER_PAGE)
      (fun data =>
         let items := get_or (items data) [] in
         let next_token := get_or (nextPageToken data) [] in
         let results := map_items items [] in
         next_offset <~ (if negb (is_nil next_token)
                         then lift (encode_offset q (Some next_token))
                         else io_ret []) ;;
         emit (EvAnswer results true 30 next_offset))
      (fun e =>
         emit (EvPrint e) ;;;
         emit (EvAnswer [] true 1 [])).

End Bot.

(** * Vocabulary of the statements

    Predicates on strings, projections of the handler's trace, the data of
    the examples, and the auxiliary functions of the proofs. *)

(** The integers from 0 up to [n], for checks by enumeration. *)
Definition zrange (n : nat) : list Z := map Z.of_nat (seq 0 n).

Definition is_ascii (c : Z) : Prop := 0 <= c < 128.

Definition is_byte (b : Z) : Prop := 0 <= b < 256.

(** The two translations of the URL-safe alphabet, there and back. *)
Definition tr_there (c : Z) : Z := if c =? 43 then 45 else if c =? 47 then 95 else c.
Definition tr_back (c : Z) : Z := if c =? 45 then 43 else if c =? 95 then 47 else c.

(** The second and third 6-bit groups of three octets. *)
Definition sextet1 (a b : Z) : Z := Z.lor (Z.shiftl (Z.land a 0x3) 4) (Z.shiftr b 4).
Definition sextet2 (b c : Z) : Z := Z.lor (Z.shiftl (Z.land b 0xF) 2) (Z.shiftr c 6).

(** The range of the code points of a Python [str]. *)
Definition valid_code_point (c : Z) : bool := (0 <=? c) && (c <=? 0x10FFFF).

(** Whether a string starts with a low surrogate. *)
Definition starts_low (s : pystr) : bool :=
  match s with
  | c :: _ => is_low_surrogate c
  | [] => false
  end.

(** A string is well formed when its code points are in range and no high
    surrogate is directly followed by a low one.  Text made of Unicode
    scalar values is well formed (lemma [scalars_well_formed]); so is every
    string that [json.loads] or a UTF-8 decoder produces. *)
Fixpoint well_formed (s : pystr) : bool :=
  match s with
  | [] => true
  | c :: r =>
      valid_code_point c && negb (is_high_surrogate c && starts_low r)
      && well_formed r
  end.

(** A Unicode scalar value: a code point that is not a surrogate. *)
Definition is_scalar (c : Z) : bool := valid_code_point c && negb (is_surrogate c).

(** What follows a first [\uXXXX] escape that decoded to [c1]: a second
    escape that completes a surrogate pair, a malformed one, or nothing of
    the kind. *)
Definition low_after (c1 : Z) (r2 : pystr) : option (res (Z * pystr)) :=
  match r2 with
  | b :: u :: g1 :: g2 :: g3 :: g4 :: r3 =>
      if is_high_surrogate c1 && negb (is_nil r3) && (b =? 92) && (u =? 117) then
        match decode_hex4 g1 g2 g3 g4 with
        | None => Some (Raise JSONDecodeError)
        | Some c2 => if is_low_surrogate c2 then Some (Ok (c2, r3)) else None
        end
      else None
  | _ => None
  end.

(** The four shapes of an escaped character. *)
Inductive escape_shape (c : Z) : pystr -> Prop :=
| shape_plain :
    (c =? 34) = false -> (c =? 92) = false -> (c <=? 0x1F) = false ->
    escape_shape c [c]
| shape_simple (e : Z) :
    (e =? 117) = false -> simple_escape e = Some c ->
    escape_shape c [92; e]
| shape_unit :
    0 <= c < 0x10000 -> escape_shape c (u_escape c)
| shape_pair :
    0x10000 <= c <= 0x10FFFF ->
    escape_shape c (u_escape (Py_UNICODE_HIGH_SURROGATE c)
                    ++ u_escape (Py_UNICODE_LOW_SURROGATE c)).

(** The value [json.loads] gives for the token of a payload. *)
Definition token_value (page_token : option pystr) : pyval :=
  match page_token with
  | Some t => PStr t
  | None => PNone
  end.

Definition token_well_formed (page_token : option pystr) : bool :=
  match page_token with
  | Some t => well_formed t
  | None => true
  end.

(** The entity written for one character, or the character itself. *)
Definition html_escape_char (c : Z) : pystr :=
  if c =? 38 then lit "&amp;"
  else if c =? 60 then lit "&lt;"
  else if c =? 62 then lit "&gt;"
  else if c =? 34 then lit "&quot;"
  else if c =? 39 then lit "&#x27;"
  else [c].

(** A character that is neither an angle bracket nor a quote. *)
Definition not_markup (c : Z) : Prop := c <> 60 /\ c <> 62 /\ c <> 34 /\ c <> 39.

(** The calls of [youtube_search] in a trace: query and page token. *)
Definition search_calls (t : list event) : list (pystr * pyval) :=
  flat_map (fun ev => match ev with
                      | EvSearch q tok _ => [(q, tok)]
                      | _ => []
                      end) t.

(** The result cards of the answers in a trace. *)
Definition answer_results (t : list event) : list InlineQueryResultArticle :=
  flat_map (fun ev => match ev with
                      | EvAnswer results _ _ _ => results
                      | _ => []
                      end) t.

(** The next offset the handler answers with after a successful search. *)
Definition next_offset_for (q : pystr) (data : SearchData) : pystr :=
  let next_token := get_or (nextPageToken data) [] in
  if is_nil next_token then []
  else urlsafe_b64encode (json_dumps_payload q (Some next_token)).

(** The cards one item contributes to the page: one or none. *)
Definition card_of (it : Item) : list InlineQueryResultArticle :=
  match make_result it with
  | Some card => [card]
  | None => []
  end.

(** Data of the examples: a key, three networks, items. *)
Definition example_key : pystr := lit "KEY".

Definition net_down : pystr -> list (pystr * pyval) -> Z -> res Response :=
  fun _ _ _ => Raise RequestException.

Definition net_status (code : Z) : pystr -> list (pystr * pyval) -> Z -> res Response :=
  fun _ _ _ => Ok {| status_code := code; json := Raise JSONDecodeError |}.

Definition net_returning (data : SearchData)
  : pystr -> list (pystr * pyval) -> Z -> res Response :=
  fun _ _ _ => Ok {| status_code := 200; json := Ok data |}.

Definition example_snippet (ttl ch desc : option pystr) : Snippet :=
  {| snippet_title := ttl; channelTitle := ch; snippet_description := desc;
     thumbnails := None |}.

Definition example_item (vid ttl : option pystr) : Item :=
  {| item_id := {| videoId := vid |};
     snippet := example_snippet ttl None None |}.

Definition fifteen_items : list Item :=
  repeat (example_item (Some (lit "abc123")) (Some (lit "A video"))) 15.

(** [decode_offset(encode_offset(q, t))] *)
Definition roundtrip (q : pystr) (t : option pystr) : res (pyval * pyval) :=
  c <- encode_offset q t ;; Ok (decode_offset c).

(** The decoding chain inside [decode_offset], up to the parsed payload. *)
Definition cursor_payload (offset : pystr) : res pyval :=
  raw <- str_encode offset ;;
  bytes <- urlsafe_b64decode raw ;;
  decoded <- bytes_decode bytes ;;
  json_loads decoded.

(** [d.get(k)] on the members of a [dict]. *)
Definition dict_get (d : list (pystr * pyval)) (k : pystr) : pyval :=
  match dict_lookup d k with
  | Some v => v
  | None => PNone
  end.

(** * Further vocabulary *)

(** A character of the URL-safe Base64 text: a letter, a digit, [-], [_]
    or the padding [=]. *)
Definition is_urlsafe_char (c : Z) : bool :=
  in_range 65 90 c || in_range 97 122 c || in_range 48 57 c
  || (c =? 45) || (c =? 95) || (c =? BASE64_PAD).

(** A character the lenient Base64 decoder looks at: one of either
    alphabet, or the padding.  Every other octet is skipped. *)
Definition is_base64_char (c : Z) : bool :=
  in_range 65 90 c || in_range 97 122 c || in_range 48 57 c
  || (c =? 43) || (c =? 47) || (c =? 45) || (c =? 95) || (c =? BASE64_PAD).

(** An octet the decoding loop does not skip: the padding or a character of
    the standard alphabet. *)
Definition a2b_looks_at (c : Z) : bool :=
  (c =? BASE64_PAD) || (table_a2b_base64 c <? 64).

(** The dictionary [params] that [youtube_search] builds (lines 36-44). *)
Definition search_params (key q : pystr) (page_token : pyval) (max_results : Z)
  : list (pystr * pyval) :=
  let params :=
    [(lit "part", PStr (lit "snippet"));
     (lit "q", PStr q);
     (lit "type", PStr (lit "video"));
     (lit "maxResults", py_int max_results);
     (lit "key", PStr key)] in
  if py_truthy page_token then dict_set params (lit "pageToken") page_token
  else params.

(** The start of the module (lines 24-27): the two variables are read from
    the environment, and the process exits when one is missing or empty. *)
Inductive startup : Type :=
| SystemExit (message : pystr)
| Loaded (TELEGRAM_TOKEN YOUTUBE_API_KEY : pystr).

(** [not v] for the result of [os.environ.get]. *)
Definition py_not (v : option pystr) : bool :=
  match v with
  | None => true
  | Some s => is_nil s
  end.

Definition load_credentials (environ : pystr -> option pystr) : startup :=
  let TELEGRAM_TOKEN := environ (lit "TELEGRAM_TOKEN") in
  let YOUTUBE_API_KEY := environ (lit "YOUTUBE_API_KEY") in
  if py_not TELEGRAM_TOKEN || py_not YOUTUBE_API_KEY then
    SystemExit (lit "Set TELEGRAM_TOKEN and YOUTUBE_API_KEY as environment variables.")
  else Loaded (or_empty TELEGRAM_TOKEN) (or_empty YOUTUBE_API_KEY).

(** An environment for the examples. *)
Definition example_environ (token key : option pystr) (name : pystr)
  : option pystr :=
  if str_eqb name (lit "TELEGRAM_TOKEN") then token
  else if str_eqb name (lit "YOUTUBE_API_KEY") then key
  else None.

(** * The handler on any JSON body

    [r.json()] returns whatever JSON value the body holds, and the handler
    reads it outside the [try] (lines 91-123).  The definitions of this part
    follow the handler on such a value, with the exceptions that
    [data.get], [for it in items], [it["id"]], [it["snippet"]], the slice
    and the other accesses raise.  A card keeps the values the handler
    passes to [InlineQueryResultArticle]; the constructors of the Telegram
    library are taken to store their arguments and [iq.answer] to return.
    Two library functions stay parameters: [str_of], the text [str(v)] of a
    value that is not a [str] (used by the f-strings), and [dumps_other],
    the text [json.dumps] writes for a value that is neither a [str] nor
    [None].  On a body of the documented shape this handler and
    [inline_query_handler] do the same (lemma [handler_json_refines]). *)

(** [obj.get(k, default)] *)
Definition py_get_default (obj : pyval) (k : pystr) (dflt : pyval) : res pyval :=
  match obj with
  | PDict d => Ok (match dict_lookup d k with Some v => v | None => dflt end)
  | _ => Raise AttributeError
  end.

(** [obj[k]] for a [str] key [k]: only a [dict] can be indexed by it. *)
Definition py_getitem (obj : pyval) (k : pystr) : res pyval :=
  match obj with
  | PDict d =>
      match dict_lookup d k with
      | Some v => Ok v
      | None => Raise KeyError
      end
  | _ => Raise TypeError
  end.

(** What [for it in obj] visits: the elements of a [list], the keys of a
    [dict], the characters of a [str]; other values are not iterable. *)
Definition py_iter (obj : pyval) : res (list pyval) :=
  match obj with
  | PList l => Ok l
  | PDict d => Ok (map (fun kv => PStr (fst kv)) d)
  | PStr s => Ok (map (fun c => PStr [c]) s)
  | _ => Raise TypeError
  end.

(** [v[:n]]: a [str] or a [list] is cut; a [dict] has no slice for a key
    (the slice is unhashable: [TypeError]), and the other values have no
    subscript. *)
Definition py_slice_to (n : nat) (v : pyval) : res pyval :=
  match v with
  | PStr s => Ok (PStr (firstn n s))
  | PList l => Ok (PList (firstn n l))
  | _ => Raise TypeError
  end.

(** [a or b] *)
Definition py_or (a b : pyval) : pyval := if py_truthy a then a else b.

(** The response of [requests.get] with the body as [r.json()] gives it. *)
Record JsonResponse : Type :=
  { js_status_code : Z;
    js_json : res pyval }.

(** The arguments of [InlineQueryResultArticle(...)] as the handler passes
    them. *)
Record JsonArticle : Type :=
  { js_id : pyval;
    js_title : pyval;
    js_description : pyval;
    js_thumb_url : pyval;
    js_input_message_content : InputTextMessageContent;
    js_reply_markup : list (list InlineKeyboardButton) }.

Inductive json_event : Type :=
| JsSearch (q : pystr) (page_token : pyval) (max_results : Z)
| JsPrint (e : exn)
| JsAnswer (results : list JsonArticle) (is_personal : bool)
    (cache_time : Z) (next_offset : pystr).

(** A computation of the handler on JSON: its trace and what it returns or
    raises, with the same operations as [io]. *)
Definition js_io (A : Type) : Type := list json_event * res A.

Definition js_ret {A} (a : A) : js_io A := ([], Ok a).

Definition js_bind {A B} (m : js_io A) (k : A -> js_io B) : js_io B :=
  match m with
  | (t, Ok a) => let '(t', r) := k a in (t ++ t', r)
  | (t, Raise e) => (t, Raise e)
  end.

Definition js_emit (ev : json_event) : js_io unit := ([ev], Ok tt).

Definition js_lift {A} (r : res A) : js_io A := ([], r).

(** [try: x = m except Exception as e: h(e) else: k(x)] *)
Definition js_try {A B} (m : js_io A) (k : A -> js_io B) (h : exn -> js_io B)
  : js_io B :=
  match m with
  | (t, Ok a) => let '(t', r) := k a in (t ++ t', r)
  | (t, Raise e) => let '(t', r) := h e in (t ++ t', r)
  end.

Declare Scope js_scope.
Notation "x <~ m ;; k" := (js_bind m (fun x => k))
  (at level 61, m at next level, right associativity) : js_scope.
Notation "m ;;; k" := (js_bind m (fun _ => k))
  (at level 61, right associativity) : js_scope.

(** [r.raise_for_status()] *)
Definition js_raise_for_status (r : JsonResponse) : res unit :=
  if in_range 400 599 (js_status_code r) then Raise HTTPError else Ok tt.

Section BotJson.

Local Open Scope js_scope.

Variable str_of : pyval -> pystr.
Variable dumps_other : pyval -> pystr.
Variable YOUTUBE_API_KEY : pystr.
Variable requests_get : pystr -> list (pystr * pyval) -> Z -> res JsonResponse.

(** [f"{v}"] *)
Definition py_format (v : pyval) : pystr :=
  match v with
  | PStr s => s
  | _ => str_of v
  end.

(** [youtube_search(query, page_token, max_results)] *)
Definition youtube_search_json (q : pystr) (page_token : pyval) (max_results : Z)
  : js_io pyval :=
  js_emit (JsSearch q page_token max_results) ;;;
  let params :=
    [(lit "part", PStr (lit "snippet"));
     (lit "q", PStr q);
     (lit "type", PStr (lit "video"));
     (lit "maxResults", py_int max_results);
     (lit "key", PStr YOUTUBE_API_KEY)] in
  let params :=
    if py_truthy page_token then dict_set params (lit "pageToken") page_token
    else params in
  r <~ js_lift (requests_get YOUTUBE_SEARCH_URL params 8) ;;
  js_lift (js_raise_for_status r) ;;;
  js_lift (js_json r).

(** [encode_offset(query, page_token)] for any value of [page_token]. *)
Definition encode_offset_json (q : pystr) (page_token : pyval) : res pystr :=
  match page_token with
  | PStr s => encode_offset q (Some s)
  | PNone => encode_offset q None
  | v =>
      let payload :=
        lit "{" ++ dumps_str (lit "q") ++ lit ": " ++ dumps_str q
        ++ lit ", " ++ dumps_str (lit "pageToken") ++ lit ": " ++ dumps_other v
        ++ lit "}" in
      raw <- str_encode payload ;;
      bytes_decode (urlsafe_b64encode raw)
  end.

(** [it["id"].get("videoId")] *)
Definition item_video_id (it : pyval) : res pyval :=
  id <- py_getitem it (lit "id") ;;
  py_get id (lit "videoId").

(** The body of the loop for one item (lines 96-121): a card, nothing
    ([continue]), or an exception. *)
Definition make_result_json (it : pyval) : res (option JsonArticle) :=
  vid <- item_video_id it ;;
  if negb (py_truthy vid) then Ok None
  else
    s <- py_getitem it (lit "snippet") ;;
    title <- py_get_default s (lit "title") (PStr (lit "YouTube video")) ;;
    channel <- py_get_default s (lit "channelTitle") (PStr []) ;;
    d <- py_get s (lit "description") ;;
    desc <- py_slice_to 120 (py_or d (PStr [])) ;;
    thumbs <- py_get_default s (lit "thumbnails") (PDict []) ;;
    dflt <- py_get_default thumbs (lit "default") (PDict []) ;;
    m <- py_get_default thumbs (lit "medium") dflt ;;
    thumb <- py_get m (lit "url") ;;
    let url := lit "https://youtu.be/" ++ py_format vid in
    let input_text := html_escape (py_format title ++ [10] ++ url) in
    let input_content :=
      {| message_text := input_text; parse_mode := lit "HTML" |} in
    let kb := [[ {| button_text := lit "Open on YouTube"; button_url := url |} ]] in
    Ok (Some {| js_id := vid;
                js_title := title;
                js_description := py_or channel desc;
                js_thumb_url := thumb;
                js_input_message_content := input_content;
                js_reply_markup := kb |}).

(** [for it in items: ...] with [results] as built so far. *)
Fixpoint map_items_json (items : list pyval) (results : list JsonArticle)
  : res (list JsonArticle) :=
  match items with
  | [] => Ok results
  | it :: rest =>
      r <- make_result_json it ;;
      match r with
      | None => map_items_json rest results
      | Some card => map_items_json rest (results ++ [card])
      end
  end.

(** Lines 91-123: the cards and the next offset the handler makes of the
    body, or the exception one of the accesses raises. *)
Definition read_page (q : pystr) (data : pyval)
  : res (list JsonArticle * pystr) :=
  items <- py_get_default data (lit "items") (PList []) ;;
  next_token <- py_get_default data (lit "nextPageToken") (PStr []) ;;
  elements <- py_iter items ;;
  results <- map_items_json elements [] ;;
  next_offset <- (if py_truthy next_token then encode_offset_json q next_token
                  else Ok []) ;;
  Ok (results, next_offset).

(** [inline_query_handler(update, context)] for the inline query [iq].
    Only the search is inside the [try]: an exception of [read_page]
    leaves the handler, and no answer is sent. *)
Definition inline_query_handler_json (iq : InlineQuery) : js_io unit :=
  let q := str_strip (or_empty (query iq)) in
  let offset := or_empty (offset iq) in
  let page_token := resolve_page_token q offset in
  if is_nil q then
    js_emit (JsAnswer [] true 1 [])
  else
    js_try (youtube_search_json q page_token RESULTS_PER_PAGE)
      (fun data =>
         page <~ js_lift (read_page q data) ;;
         js_emit (JsAnswer (fst page) true 30 (snd page)))
      (fun e =>
         js_emit (JsPrint e) ;;;
         js_emit (JsAnswer [] true 1 [])).

End BotJson.

(** The JSON value of a response of the documented shape. *)
Definition member (k : string) (v : option pyval) : list (pystr * pyval) :=
  match v with
  | Some x => [(lit k, x)]
  | None => []
  end.

Definition json_of_thumbnail (t : Thumbnail) : pyval :=
  PDict (member "url" (option_map PStr (url t))).

Definition json_of_thumbnails (t : Thumbnails) : pyval :=
  PDict (member "medium" (option_map json_of_thumbnail (medium t))
         ++ member "default" (option_map json_of_thumbnail (default t))).

Definition json_of_snippet (s : Snippet) : pyval :=
  PDict (member "title" (option_map PStr (snippet_title s))
         ++ member "channelTitle" (option_map PStr (channelTitle s))
         ++ member "description" (option_map PStr (snippet_description s))
         ++ member "thumbnails" (option_map json_of_thumbnails (thumbnails s))).

Definition json_of_item (it : Item) : pyval :=
  PDict [(lit "id", PDict (member "videoId" (option_map PStr (videoId (item_id it)))));
         (lit "snippet", json_of_snippet (snippet it))].

Definition json_of_data (d : SearchData) : pyval :=
  PDict (member "items" (option_map (fun l => PList (map json_of_item l)) (items d))
         ++ member "nextPageToken" (option_map PStr (nextPageToken d))).

Definition json_of_response (r : res Response) : res JsonResponse :=
  match r with
  | Ok r =>
      Ok {| js_status_code := status_code r;
            js_json := match json r with
                       | Ok d => Ok (json_of_data d)
                       | Raise e => Raise e
                       end |}
  | Raise e => Raise e
  end.

Definition json_of_article (a : InlineQueryResultArticle) : JsonArticle :=
  {| js_id := PStr (article_id a);
     js_title := PStr (title a);
     js_description := PStr (description a);
     js_thumb_url := match thumb_url a with Some u => PStr u | None => PNone end;
     js_input_message_content := input_message_content a;
     js_reply_markup := reply_markup a |}.

Definition json_of_event (ev : event) : json_event :=
  match ev with
  | EvSearch q tok m => JsSearch q tok m
  | EvPrint e => JsPrint e
  | EvAnswer results p c off => JsAnswer (map json_of_article results) p c off
  end.

(** The searches and the answers in a trace of the handler on JSON. *)
Definition js_search_calls (t : list json_event) : list (pystr * pyval) :=
  flat_map (fun ev => match ev with
                      | JsSearch q tok _ => [(q, tok)]
                      | _ => []
                      end) t.

Definition js_answers (t : list json_event)
  : list (list JsonArticle * bool * Z * pystr) :=
  flat_map (fun ev => match ev with
                      | JsAnswer results p c off => [(results, p, c, off)]
                      | _ => []
                      end) t.

(** The query and the page token the handler searches with. *)
Definition searched_query (iq : InlineQuery) : pystr :=
  str_strip (or_empty (query iq)).

Definition searched_token (iq : InlineQuery) : pyval :=
  resolve_page_token (searched_query iq) (or_empty (offset iq)).




(** A status of the 2xx class. *)
Definition is_2xx (status : Z) : Prop := 200 <= status <= 299.

(** Networks and bodies of the examples. *)
Definition js_net (status : Z) (body : res pyval)
  : pystr -> list (pystr * pyval) -> Z -> res JsonResponse :=
  fun _ _ _ => Ok {| js_status_code := status; js_json := body |}.

Definition js_net_down : pystr -> list (pystr * pyval) -> Z -> res JsonResponse :=
  fun _ _ _ => Raise RequestException.

(** A stand-in for [str_of] and [dumps_other] in the examples, none of
    which formats a value that is not a [str]. *)
Definition no_str : pyval -> pystr := fun _ => [].

Definition example_body : pyval :=
  json_of_data
    {| items := Some [example_item (Some (lit "abc123")) (Some (lit "A video"));
                      example_item None (Some (lit "A channel"))];
       nextPageToken := Some (lit "TOKEN1") |}.


(** * Properties *)

(** ** Finite case analysis and small facts *)

Lemma zrange_In (n : nat) (i : Z) : 0 <= i < Z.of_nat n -> In i (zrange n).
Proof.
  intros H. unfold zrange. apply in_map_iff. exists (Z.to_nat i). split.
  - lia.
  - apply in_seq. lia.
Qed.

Lemma forallb_zrange (P : Z -> bool) (n : nat) :
  forallb P (zrange n) = true -> forall i, 0 <= i < Z.of_nat n -> P i = true.
Proof.
  intros H i Hi. rewrite forallb_forall in H. apply H, zrange_In, Hi.
Qed.

Lemma forallb_zrange2 (P : Z -> Z -> bool) (n m : nat) :
  forallb (fun a => forallb (P a) (zrange m)) (zrange n) = true ->
  forall a b, 0 <= a < Z.of_nat n -> 0 <= b < Z.of_nat m -> P a b = true.
Proof.
  intros H a b Ha Hb.
  apply (forallb_zrange (P a) m); [| exact Hb].
  apply (forallb_zrange (fun a => forallb (P a) (zrange m)) n H a Ha).
Qed.

Lemma str_eqb_eq (a b : pystr) : str_eqb a b = true <-> a = b.
Proof.
  revert b. induction a as [| x a IH]; intros [| y b]; simpl; split;
    try congruence; try reflexivity.
  - intros H. apply andb_true_iff in H. destruct H as [H1 H2].
    apply Z.eqb_eq in H1. apply IH in H2. congruence.
  - intros H. inversion H; subst. rewrite Z.eqb_refl. simpl. apply IH. reflexivity.
Qed.

Lemma py_eq_str_eq (v : pyval) (s : pystr) : py_eq_str v s = true <-> v = PStr s.
Proof.
  destruct v; simpl; split; try congruence.
  - intros H. apply str_eqb_eq in H. congruence.
  - intros H. inversion H; subst. apply str_eqb_eq. reflexivity.
Qed.

Lemma list_ind3 {A} (P : list A -> Prop) :
  P [] -> (forall a, P [a]) -> (forall a b, P [a; b]) ->
  (forall a b c l, P l -> P (a :: b :: c :: l)) ->
  forall l, P l.
Proof.
  intros H0 H1 H2 H3.
  fix IH 1. intros [| a [| b [| c l]]].
  - exact H0.
  - apply H1.
  - apply H2.
  - apply H3, IH.
Qed.

(** ** UTF-8 on ASCII text *)

Lemma str_encode_ascii (s : pystr) : Forall is_ascii s -> str_encode s = Ok s.
Proof.
  induction 1 as [| c s Hc _ IH]; simpl; [reflexivity |].
  unfold utf8_encode_char. unfold is_ascii in Hc.
  destruct (Z.ltb_spec c 0x80); [| lia]. simpl. rewrite IH. reflexivity.
Qed.

Lemma bytes_decode_ascii (bs : pybytes) : Forall is_ascii bs -> bytes_decode bs = Ok bs.
Proof.
  induction 1 as [| c s Hc _ IH]; simpl; [reflexivity |].
  unfold is_ascii in Hc. unfold in_range.
  destruct (Z.leb_spec 0 c); [| lia]. destruct (Z.leb_spec c 127); [| lia].
  simpl. rewrite IH. reflexivity.
Qed.

(** ** Base64: decoding what the encoder wrote *)

Lemma sextet_char (i : Z) :
  0 <= i < 64 ->
  (tr_back (tr_there (table_b2a_base64 i)) =? BASE64_PAD) = false
  /\ table_a2b_base64 (tr_back (tr_there (table_b2a_base64 i))) = i
  /\ is_ascii (tr_there (table_b2a_base64 i)).
Proof.
  intros Hi.
  pose (P := fun i =>
                 negb (tr_back (tr_there (table_b2a_base64 i)) =? BASE64_PAD)
                 && (table_a2b_base64 (tr_back (tr_there (table_b2a_base64 i))) =? i)
                 && (0 <=? tr_there (table_b2a_base64 i))
                 && (tr_there (table_b2a_base64 i) <? 128)).
  assert (H : P i = true).
  { apply (forallb_zrange P 64); [vm_compute; reflexivity | exact Hi]. }
  unfold P in H.
  repeat (apply andb_true_iff in H; destruct H as [H ?]).
  apply negb_true_iff in H. unfold is_ascii. repeat split; try lia; assumption.
Qed.

Lemma byte_pair_facts (a b : Z) :
  is_byte a -> is_byte b ->
  (0 <= Z.shiftr a 2 < 64)
  /\ (0 <= sextet1 a b < 64)
  /\ (0 <= sextet2 a b < 64)
  /\ (0 <= Z.land a 0x3F < 64)
  /\ u8 (Z.lor (Z.shiftl (Z.shiftr a 2) 2) (Z.shiftr (sextet1 a b) 4)) = a
  /\ Z.land (sextet1 b a) 0x0F = Z.shiftr a 4
  /\ u8 (Z.lor (Z.shiftl (Z.shiftr a 4) 4) (Z.shiftr (sextet2 a b) 2)) = a
  /\ Z.land (sextet2 b a) 0x03 = Z.shiftr a 6
  /\ u8 (Z.lor (Z.shiftl (Z.shiftr a 6) 6) (Z.land a 0x3F)) = a.
Proof.
  intros Ha Hb.
  pose (P := fun a b =>
     (0 <=? Z.shiftr a 2) && (Z.shiftr a 2 <? 64)
     && (0 <=? sextet1 a b) && (sextet1 a b <? 64)
     && (0 <=? sextet2 a b) && (sextet2 a b <? 64)
     && (0 <=? Z.land a 0x3F) && (Z.land a 0x3F <? 64)
     && (u8 (Z.lor (Z.shiftl (Z.shiftr a 2) 2) (Z.shiftr (sextet1 a b) 4)) =? a)
     && (Z.land (sextet1 b a) 0x0F =? Z.shiftr a 4)
     && (u8 (Z.lor (Z.shiftl (Z.shiftr a 4) 4) (Z.shiftr (sextet2 a b) 2)) =? a)
     && (Z.land (sextet2 b a) 0x03 =? Z.shiftr a 6)
     && (u8 (Z.lor (Z.shiftl (Z.shiftr a 6) 6) (Z.land a 0x3F)) =? a)).
  assert (H : P a b = true).
  { apply (forallb_zrange2 P 256 256); [vm_compute; reflexivity | exact Ha | exact Hb]. }
  unfold P in H.
  repeat (apply andb_true_iff in H; destruct H as [H ?]).
  repeat split; lia.
Qed.

(** One step of the decoding loop on a character of the alphabet. *)
Lemma a2b_step (i : Z) (rest : pybytes) (quad_pos leftchar pads : Z) (out : pybytes) :
  0 <= i < 64 ->
  a2b_base64_loop (tr_back (tr_there (table_b2a_base64 i)) :: rest)
    quad_pos leftchar pads out
  = if quad_pos =? 0 then a2b_base64_loop rest 1 i 0 out
    else if quad_pos =? 1 then
      a2b_base64_loop rest 2 (Z.land i 0x0F) 0
        (u8 (Z.lor (Z.shiftl leftchar 2) (Z.shiftr i 4)) :: out)
    else if quad_pos =? 2 then
      a2b_base64_loop rest 3 (Z.land i 0x03) 0
        (u8 (Z.lor (Z.shiftl leftchar 4) (Z.shiftr i 2)) :: out)
    else
      a2b_base64_loop rest 0 0 0 (u8 (Z.lor (Z.shiftl leftchar 6) i) :: out).
Proof.
  intros Hi. destruct (sextet_char i Hi) as (Hpad & Htab & _).
  cbn [a2b_base64_loop]. rewrite Hpad, Htab.
  destruct (Z.leb_spec 64 i); [lia | reflexivity].
Qed.

Lemma a2b_loop_encoded (bs : pybytes) :
  Forall is_byte bs ->
  forall out,
    a2b_base64_loop (map tr_back (map tr_there (b2a_base64 bs))) 0 0 0 out
    = Ok (rev out ++ bs).
Proof.
  induction bs as [| a | a b | a b c l IH] using list_ind3; intros Hb out.
  - simpl. rewrite app_nil_r. reflexivity.
  - inversion Hb as [| ? ? Ha _]; subst.
    assert (H0 : is_byte 0) by (unfold is_byte; lia).
    destruct (byte_pair_facts a 0 Ha H0) as (R0 & R1 & _ & _ & F1 & _).
    cbn [b2a_base64 map].
    replace (Z.shiftl (Z.land a 3) 4) with (sextet1 a 0)
      by (unfold sextet1; rewrite Z.shiftr_0_l, Z.lor_0_r; reflexivity).
    rewrite (a2b_step _ _ _ _ _ _ R0). cbn [Z.eqb].
    rewrite (a2b_step _ _ _ _ _ _ R1). cbn [Z.eqb Pos.eqb].
    rewrite F1. cbn. reflexivity.
  - inversion Hb as [| ? ? Ha Hb']; subst. inversion Hb' as [| ? ? Hbb _]; subst.
    assert (H0 : is_byte 0) by (unfold is_byte; lia).
    destruct (byte_pair_facts a b Ha Hbb) as (R0 & R1 & _ & _ & F1 & _).
    destruct (byte_pair_facts b a Hbb Ha) as (_ & _ & _ & _ & _ & L1 & _).
    destruct (byte_pair_facts b 0 Hbb H0) as (_ & _ & R2 & _ & _ & _ & F2 & _).
    cbn [b2a_base64 map].
    replace (Z.shiftl (Z.land b 15) 2) with (sextet2 b 0)
      by (unfold sextet2; rewrite Z.shiftr_0_l, Z.lor_0_r; reflexivity).
    fold (sextet1 a b).
    rewrite (a2b_step _ _ _ _ _ _ R0). cbn [Z.eqb].
    rewrite (a2b_step _ _ _ _ _ _ R1). cbn [Z.eqb Pos.eqb].
    rewrite (a2b_step _ _ _ _ _ _ R2). cbn [Z.eqb Pos.eqb].
    rewrite F1, L1, F2. cbn. rewrite <- ?app_assoc. reflexivity.
  - inversion Hb as [| ? ? Ha Hb']; subst. inversion Hb' as [| ? ? Hbb Hb'']; subst.
    inversion Hb'' as [| ? ? Hc Hl]; subst.
    destruct (byte_pair_facts a b Ha Hbb) as (R0 & R1 & _ & _ & F1 & _).
    destruct (byte_pair_facts b a Hbb Ha) as (_ & _ & _ & _ & _ & L1 & _).
    destruct (byte_pair_facts b c Hbb Hc) as (_ & _ & R2 & _ & _ & _ & F2 & _).
    destruct (byte_pair_facts c b Hc Hbb) as (_ & _ & _ & R3 & _ & _ & _ & L2 & F3).
    cbn [b2a_base64 map].
    fold (sextet1 a b). fold (sextet2 b c).
    rewrite (a2b_step _ _ _ _ _ _ R0). cbn [Z.eqb].
    rewrite (a2b_step _ _ _ _ _ _ R1). cbn [Z.eqb Pos.eqb].
    rewrite (a2b_step _ _ _ _ _ _ R2). cbn [Z.eqb Pos.eqb].
    rewrite (a2b_step _ _ _ _ _ _ R3). cbn [Z.eqb Pos.eqb].
    rewrite F1, L1, F2, L2, F3.
    rewrite (IH Hl). cbn [rev]. rewrite <- ?app_assoc. reflexivity.
Qed.

(** [base64.urlsafe_b64decode(base64.urlsafe_b64encode(bs)) == bs] *)
Lemma urlsafe_b64_roundtrip (bs : pybytes) :
  Forall is_byte bs -> urlsafe_b64decode (urlsafe_b64encode bs) = Ok bs.
Proof.
  intros Hb. unfold urlsafe_b64decode, urlsafe_b64encode, a2b_base64, translate2.
  change (map (fun c => if c =? 45 then 43 else if c =? 95 then 47 else c)
            (map (fun c => if c =? 43 then 45 else if c =? 47 then 95 else c)
               (b2a_base64 bs)))
    with (map tr_back (map tr_there (b2a_base64 bs))).
  rewrite (a2b_loop_encoded bs Hb []). reflexivity.
Qed.

Lemma urlsafe_b64encode_ascii (bs : pybytes) :
  Forall is_byte bs -> Forall is_ascii (urlsafe_b64encode bs).
Proof.
  unfold urlsafe_b64encode, translate2.
  change (fun c => if c =? 43 then 45 else if c =? 47 then 95 else c) with tr_there.
  assert (Hpad : is_ascii (tr_there BASE64_PAD)) by (unfold is_ascii, tr_there, BASE64_PAD; simpl; lia).
  assert (H0 : is_byte 0) by (unfold is_byte; lia).
  induction bs as [| a | a b | a b c l IH] using list_ind3; intros Hb.
  - constructor.
  - inversion Hb as [| ? ? Ha _]; subst.
    destruct (byte_pair_facts a 0 Ha H0) as (R0 & R1 & _).
    cbn [b2a_base64 map].
    replace (Z.shiftl (Z.land a 3) 4) with (sextet1 a 0)
      by (unfold sextet1; rewrite Z.shiftr_0_l, Z.lor_0_r; reflexivity).
    repeat (apply Forall_cons; [first [apply sextet_char; assumption | exact Hpad] |]).
    apply Forall_nil.
  - inversion Hb as [| ? ? Ha Hb']; subst. inversion Hb' as [| ? ? Hbb _]; subst.
    destruct (byte_pair_facts a b Ha Hbb) as (R0 & R1 & _).
    destruct (byte_pair_facts b 0 Hbb H0) as (_ & _ & R2 & _).
    cbn [b2a_base64 map].
    replace (Z.shiftl (Z.land b 15) 2) with (sextet2 b 0)
      by (unfold sextet2; rewrite Z.shiftr_0_l, Z.lor_0_r; reflexivity).
    fold (sextet1 a b).
    repeat (apply Forall_cons; [first [apply sextet_char; assumption | exact Hpad] |]).
    apply Forall_nil.
  - inversion Hb as [| ? ? Ha Hb']; subst. inversion Hb' as [| ? ? Hbb Hb'']; subst.
    inversion Hb'' as [| ? ? Hc Hl]; subst.
    destruct (byte_pair_facts a b Ha Hbb) as (R0 & R1 & _).
    destruct (byte_pair_facts b c Hbb Hc) as (_ & _ & R2 & _).
    destruct (byte_pair_facts c b Hc Hbb) as (_ & _ & _ & R3 & _).
    cbn [b2a_base64 map].
    fold (sextet1 a b). fold (sextet2 b c).
    repeat (apply Forall_cons; [apply sextet_char; assumption |]).
    apply IH, Hl.
Qed.

(** ** JSON strings: reading back what [json.dumps] wrote *)

Lemma land_15_range (x : Z) : 0 <= Z.land x 0xF < 16.
Proof.
  change 0xF with (Z.ones 4). rewrite Z.land_ones by lia.
  change (2 ^ 4) with 16. apply Z.mod_pos_bound. lia.
Qed.

Lemma hexdigit_facts (d : Z) :
  0 <= d < 16 -> is_ascii (hexdigit d) /\ hex_value (hexdigit d) = Some d.
Proof.
  intros Hd.
  pose (P := fun d => (0 <=? hexdigit d) && (hexdigit d <? 128)
                      && match hex_value (hexdigit d) with
                         | Some v => v =? d
                         | None => false
                         end).
  assert (H : P d = true).
  { apply (forallb_zrange P 16); [vm_compute; reflexivity | exact Hd]. }
  unfold P in H.
  apply andb_true_iff in H. destruct H as [H H3].
  apply andb_true_iff in H. destruct H as [H1 H2].
  split; [unfold is_ascii; lia |].
  destruct (hex_value (hexdigit d)); [| discriminate].
  apply Z.eqb_eq in H3. congruence.
Qed.

Lemma u_escape_ascii (c : Z) : Forall is_ascii (u_escape c).
Proof.
  unfold u_escape.
  repeat (apply Forall_cons;
          [first [apply hexdigit_facts, land_15_range | unfold is_ascii; lia] |]).
  apply Forall_nil.
Qed.

Lemma lor_shiftl_low (x y n : Z) :
  0 <= n -> 0 <= y < 2 ^ n -> Z.lor (Z.shiftl x n) y = x * 2 ^ n + y.
Proof.
  intros Hn Hy.
  rewrite <- Z.shiftl_mul_pow2 by exact Hn.
  rewrite <- (Z.add_lor_land (Z.shiftl x n) y).
  assert (H0 : Z.land (Z.shiftl x n) y = 0).
  { apply Z.bits_inj'. intros i Hi.
    rewrite Z.land_spec, Z.bits_0.
    destruct (Z.lt_ge_cases i n) as [Hlt | Hge].
    - rewrite Z.shiftl_spec_low by exact Hlt. reflexivity.
    - assert (Hy0 : Z.testbit y i = false).
      { apply (Z.testbit_false y i Hi).
        rewrite Z.div_small; [reflexivity |].
        split; [lia |].
        apply Z.lt_le_trans with (2 ^ n); [lia |].
        apply Z.pow_le_mono_r; lia. }
      rewrite Hy0. apply andb_false_r. }
  rewrite H0. lia.
Qed.

(** The four hex digits of a 16-bit unit are read back as the unit. *)
Lemma decode_hex4_u_escape (c : Z) :
  0 <= c < 0x10000 ->
  decode_hex4 (hexdigit (Z.land (Z.shiftr c 12) 0xF))
              (hexdigit (Z.land (Z.shiftr c 8) 0xF))
              (hexdigit (Z.land (Z.shiftr c 4) 0xF))
              (hexdigit (Z.land c 0xF)) = Some c.
Proof.
  intros Hc. unfold decode_hex4, hex_step.
  rewrite !(proj2 (hexdigit_facts _ (land_15_range _))).
  f_equal.
  assert (Hn : forall k, 0 <= Z.land (Z.shiftr c k) 15 < 2 ^ 4).
  { intros k. apply (land_15_range (Z.shiftr c k)). }
  rewrite Z.shiftl_0_l, Z.lor_0_l.
  rewrite !lor_shiftl_low by (first [lia | apply Hn | apply (land_15_range c)]).
  change 15 with (Z.ones 4). rewrite !Z.land_ones by lia.
  rewrite !Z.shiftr_div_pow2 by lia.
  change (2 ^ 4) with 16. change (2 ^ 8) with 256. change (2 ^ 12) with 4096.
  Z.div_mod_to_equations. lia.
Qed.

(** The surrogate halves written for a character beyond the BMP, and their
    join. *)
Lemma surrogate_halves (c : Z) :
  0x10000 <= c <= 0x10FFFF ->
  0xD800 <= Py_UNICODE_HIGH_SURROGATE c <= 0xDBFF
  /\ 0xDC00 <= Py_UNICODE_LOW_SURROGATE c <= 0xDFFF
  /\ Py_UNICODE_JOIN_SURROGATES (Py_UNICODE_HIGH_SURROGATE c)
       (Py_UNICODE_LOW_SURROGATE c) = c.
Proof.
  intros Hc.
  unfold Py_UNICODE_JOIN_SURROGATES, Py_UNICODE_HIGH_SURROGATE,
    Py_UNICODE_LOW_SURROGATE.
  change (Z.shiftr 0x10000 10) with 64.
  change 0x3FF with (Z.ones 10).
  rewrite !Z.land_ones by lia.
  rewrite !Z.shiftr_div_pow2 by lia.
  change (2 ^ 10) with 1024.
  assert (Hq : 64 <= c / 1024 <= 1087).
  { split.
    - apply Z.div_le_lower_bound; lia.
    - assert (c / 1024 < 1088) by (apply Z.div_lt_upper_bound; lia). lia. }
  assert (Hr : 0 <= c mod 1024 < 1024) by (apply Z.mod_pos_bound; lia).
  assert (Hdm : c = 1024 * (c / 1024) + c mod 1024) by (apply Z.div_mod; lia).
  assert (Hh : (0xD800 - 64 + c / 1024) mod 1024 = c / 1024 - 64).
  { replace (0xD800 - 64 + c / 1024) with ((c / 1024 - 64) + 54 * 1024) by lia.
    rewrite Z.mod_add by lia. apply Z.mod_small. lia. }
  assert (Hl : (0xDC00 + c mod 1024) mod 1024 = c mod 1024).
  { replace (0xDC00 + c mod 1024) with (c mod 1024 + 55 * 1024) by lia.
    rewrite Z.mod_add by lia. apply Z.mod_small. lia. }
  rewrite Hh, Hl.
  rewrite lor_shiftl_low by (change (2 ^ 10) with 1024; lia).
  change (2 ^ 10) with 1024. lia.
Qed.

Lemma scalars_well_formed (s : pystr) :
  forallb is_scalar s = true -> well_formed s = true.
Proof.
  induction s as [| c r IH]; simpl; [reflexivity |].
  intros H. apply andb_true_iff in H. destruct H as [Hc Hr].
  rewrite (IH Hr). unfold is_scalar in Hc.
  apply andb_true_iff in Hc. destruct Hc as [Hv Hs]. rewrite Hv. simpl.
  rewrite andb_true_r. apply negb_true_iff.
  apply negb_true_iff in Hs.
  unfold is_high_surrogate, is_surrogate in *.
  destruct (Z.leb_spec 0xD800 c); simpl in *; [| reflexivity].
  destruct (Z.leb_spec c 0xDFFF); [discriminate |].
  destruct (Z.leb_spec c 0xDBFF); [lia | reflexivity].
Qed.

Lemma scanstring_u (h1 h2 h3 h4 : Z) (r2 : pystr) :
  scanstring (92 :: 117 :: h1 :: h2 :: h3 :: h4 :: r2)
  = if is_nil r2 then Raise JSONDecodeError
    else
      match decode_hex4 h1 h2 h3 h4 with
      | None => Raise JSONDecodeError
      | Some c1 =>
          match low_after c1 r2 with
          | Some (Raise e) => Raise JSONDecodeError
          | Some (Ok (c2, r3)) =>
              '(str, rest) <- scanstring r3 ;;
              Ok (Py_UNICODE_JOIN_SURROGATES c1 c2 :: str, rest)
          | None =>
              '(str, rest) <- scanstring r2 ;;
              Ok (c1 :: str, rest)
          end
      end.
Proof.
  cbn [scanstring]. change (92 =? 34) with false. change (92 =? 92) with true.
  change (117 =? 117) with true. cbv iota.
  destruct (is_nil r2) eqn:Hn; [reflexivity |].
  destruct (decode_hex4 h1 h2 h3 h4) as [c1 |]; [| reflexivity].
  unfold low_after.
  destruct r2 as [| b [| u [| g1 [| g2 [| g3 [| g4 r3]]]]]]; try reflexivity.
  destruct (is_high_surrogate c1 && negb (is_nil r3) && (b =? 92) && (u =? 117));
    [| reflexivity].
  destruct (decode_hex4 g1 g2 g3 g4) as [c2 |]; [| reflexivity].
  destruct (is_low_surrogate c2); reflexivity.
Qed.

Lemma is_nil_app_cons {A} (a b : list A) (x : A) : is_nil (a ++ x :: b) = false.
Proof. destruct a; reflexivity. Qed.

Lemma low_after_not_high (c1 : Z) (r2 : pystr) :
  is_high_surrogate c1 = false -> low_after c1 r2 = None.
Proof.
  intros H. unfold low_after. rewrite H.
  destruct r2 as [| b [| u [| g1 [| g2 [| g3 [| g4 r3]]]]]]; reflexivity.
Qed.

Lemma low_after_head (c1 b : Z) (t : pystr) :
  (b =? 92) = false -> low_after c1 (b :: t) = None.
Proof.
  intros H. unfold low_after. rewrite H.
  destruct t as [| u [| g1 [| g2 [| g3 [| g4 r3]]]]]; try reflexivity.
  rewrite andb_false_r. reflexivity.
Qed.

Lemma low_after_head2 (c1 b u : Z) (t : pystr) :
  (u =? 117) = false -> low_after c1 (b :: u :: t) = None.
Proof.
  intros H. unfold low_after. rewrite H.
  destruct t as [| g1 [| g2 [| g3 [| g4 r3]]]]; try reflexivity.
  rewrite andb_false_r. reflexivity.
Qed.

Lemma low_after_u (c1 x : Z) (t : pystr) :
  0 <= x < 0x10000 ->
  low_after c1 (u_escape x ++ t)
  = if is_high_surrogate c1 && negb (is_nil t) then
      if is_low_surrogate x then Some (Ok (x, t)) else None
    else None.
Proof.
  intros Hx. unfold low_after, u_escape. cbn [app].
  rewrite (decode_hex4_u_escape x Hx).
  change (92 =? 92) with true. change (117 =? 117) with true.
  rewrite !andb_true_r. reflexivity.
Qed.

Lemma escape_char_shape (c : Z) :
  valid_code_point c = true -> escape_shape c (escape_char c).
Proof.
  intros Hv. unfold valid_code_point in Hv.
  apply andb_true_iff in Hv. destruct Hv as [H0 H1].
  apply Z.leb_le in H0. apply Z.leb_le in H1.
  unfold escape_char. destruct (S_CHAR c) eqn:HS.
  - unfold S_CHAR in HS.
    repeat (apply andb_true_iff in HS; destruct HS as [HS ?]).
    apply shape_plain.
    + apply negb_true_iff. assumption.
    + apply negb_true_iff. assumption.
    + apply Z.leb_gt. apply Z.leb_le in HS. lia.
  - unfold ascii_escape_unichar.
    repeat match goal with
           | |- escape_shape c (if c =? ?k then _ else _) =>
               destruct (Z.eqb_spec c k);
               [subst c; apply shape_simple; reflexivity |]
           end.
    destruct (Z.leb_spec 0x10000 c).
    + apply shape_pair. lia.
    + apply shape_unit. lia.
Qed.

Lemma low_after_encoded (c1 : Z) (s : pystr) (rest : pystr) :
  well_formed s = true ->
  is_high_surrogate c1 && starts_low s = false ->
  low_after c1 (encode_basestring_ascii s ++ 34 :: rest) = None.
Proof.
  intros Hwf Hpair.
  destruct (is_high_surrogate c1) eqn:Hh;
    [| apply low_after_not_high; exact Hh].
  simpl in Hpair.
  destruct s as [| c s'].
  - apply low_after_head. reflexivity.
  - simpl in Hpair. cbn [well_formed] in Hwf.
    apply andb_true_iff in Hwf. destruct Hwf as [Hwf _].
    apply andb_true_iff in Hwf. destruct Hwf as [Hv _].
    cbn [encode_basestring_ascii]. rewrite <- app_assoc.
    destruct (escape_char_shape c Hv) as [Hq Hb Hc | e He Hs | Hc | Hc].
    + apply low_after_head. exact Hb.
    + apply low_after_head2. exact He.
    + rewrite (low_after_u _ _ _ Hc), Hh, Hpair.
      destruct (is_nil _); reflexivity.
    + rewrite <- app_assoc.
      destruct (surrogate_halves c Hc) as (HH & _ & _).
      rewrite low_after_u by lia.
      assert (Hnl : is_low_surrogate (Py_UNICODE_HIGH_SURROGATE c) = false).
      { unfold is_low_surrogate. apply andb_false_iff. left. apply Z.leb_gt. lia. }
      rewrite Hh, Hnl. destruct (is_nil _); reflexivity.
Qed.

Lemma scanstring_plain (c : Z) (t : pystr) :
  (c =? 34) = false -> (c =? 92) = false -> (c <=? 0x1F) = false ->
  scanstring (c :: t) = '(str, rest) <- scanstring t ;; Ok (c :: str, rest).
Proof.
  intros H1 H2 H3. cbn [scanstring]. rewrite H1, H2, H3. reflexivity.
Qed.

Lemma scanstring_simple (e c : Z) (t : pystr) :
  (e =? 117) = false -> simple_escape e = Some c ->
  scanstring (92 :: e :: t) = '(str, rest) <- scanstring t ;; Ok (c :: str, rest).
Proof.
  intros H1 H2. cbn [scanstring].
  change (92 =? 34) with false. change (92 =? 92) with true. cbv iota.
  rewrite H1, H2. reflexivity.
Qed.

(** [scanstring] reads an escaped well-formed string back, up to the
    closing quote. *)
Lemma scanstring_encoded (s : pystr) :
  well_formed s = true ->
  forall rest,
    scanstring (encode_basestring_ascii s ++ 34 :: rest) = Ok (s, rest).
Proof.
  induction s as [| c s' IH]; intros Hwf rest.
  - reflexivity.
  - cbn [well_formed] in Hwf.
    apply andb_true_iff in Hwf. destruct Hwf as [Hwf Hwf'].
    apply andb_true_iff in Hwf. destruct Hwf as [Hv Hpair].
    apply negb_true_iff in Hpair.
    specialize (IH Hwf' rest).
    cbn [encode_basestring_ascii]. rewrite <- app_assoc.
    destruct (escape_char_shape c Hv) as [Hq Hb Hc | e He Hs | Hc | Hc].
    + cbn [app]. rewrite (scanstring_plain _ _ Hq Hb Hc), IH. reflexivity.
    + cbn [app]. rewrite (scanstring_simple _ _ _ He Hs), IH. reflexivity.
    + unfold u_escape at 1. cbn [app].
      rewrite scanstring_u, is_nil_app_cons, (decode_hex4_u_escape c Hc).
      rewrite (low_after_encoded c s' rest Hwf' Hpair), IH. reflexivity.
    + destruct (surrogate_halves c Hc) as (HH & HL & HJ).
      rewrite <- app_assoc. unfold u_escape at 1. cbn [app].
      rewrite scanstring_u.
      assert (Hne : is_nil (u_escape (Py_UNICODE_LOW_SURROGATE c)
                            ++ encode_basestring_ascii s' ++ 34 :: rest) = false)
        by reflexivity.
      rewrite Hne, decode_hex4_u_escape by lia.
      rewrite low_after_u by lia.
      assert (Hh : is_high_surrogate (Py_UNICODE_HIGH_SURROGATE c) = true).
      { unfold is_high_surrogate. apply andb_true_iff. split; apply Z.leb_le; lia. }
      assert (Hl : is_low_surrogate (Py_UNICODE_LOW_SURROGATE c) = true).
      { unfold is_low_surrogate. apply andb_true_iff. split; apply Z.leb_le; lia. }
      rewrite Hh, Hl, is_nil_app_cons. cbn [negb andb].
      rewrite IH. cbn [bind]. rewrite HJ. reflexivity.
Qed.

Lemma encode_basestring_ascii_is_ascii (s : pystr) :
  Forall is_ascii (encode_basestring_ascii s).
Proof.
  induction s as [| c s' IH]; [constructor |].
  cbn [encode_basestring_ascii]. apply Forall_app. split; [| exact IH].
  unfold escape_char. destruct (S_CHAR c) eqn:HS.
  - unfold S_CHAR in HS.
    repeat (apply andb_true_iff in HS; destruct HS as [HS ?]).
    constructor; [| constructor]. unfold is_ascii.
    apply Z.leb_le in HS. assert (c <= 126) by (apply Z.leb_le; assumption). lia.
  - unfold ascii_escape_unichar.
    repeat match goal with
           | |- Forall is_ascii (if ?b then _ else _) => destruct b
           end;
      try (apply Forall_app; split); try apply u_escape_ascii;
      repeat (constructor; try (unfold is_ascii; lia)).
Qed.

(** ** The cursor payload through [json.loads] *)

Lemma scan_once_dumps_str (fuel : nat) (s rest : pystr) :
  well_formed s = true ->
  scan_once (S fuel) (dumps_str s ++ rest) = Ok (PStr s, rest).
Proof.
  intros Hwf. unfold dumps_str. cbn [app]. rewrite <- app_assoc. cbn [app].
  cbn [scan_once]. change (34 =? 34) with true. cbv iota.
  rewrite (scanstring_encoded s Hwf rest). reflexivity.
Qed.

Lemma scan_once_dumps_optstr (fuel : nat) (t : option pystr) (rest : pystr) :
  token_well_formed t = true ->
  scan_once (S fuel) (dumps_optstr t ++ 125 :: rest)
  = Ok (token_value t, 125 :: rest).
Proof.
  intros Hwf. destruct t as [t |].
  - apply scan_once_dumps_str. exact Hwf.
  - reflexivity.
Qed.

Lemma skip_whitespace_dumps_str (s r : pystr) :
  skip_whitespace (dumps_str s ++ r) = dumps_str s ++ r.
Proof. reflexivity. Qed.

Lemma skip_whitespace_dumps_optstr (t : option pystr) (r : pystr) :
  skip_whitespace (dumps_optstr t ++ r) = dumps_optstr t ++ r.
Proof. destruct t; reflexivity. Qed.

Lemma scanstring_key_q (r : pystr) : scanstring (113 :: 34 :: r) = Ok ([113], r).
Proof. reflexivity. Qed.

Lemma scanstring_key_pageToken (r : pystr) :
  scanstring (112 :: 97 :: 103 :: 101 :: 84 :: 111 :: 107 :: 101 :: 110 :: 34 :: r)
  = Ok (lit "pageToken", r).
Proof. reflexivity. Qed.

Lemma scan_once_payload (fuel : nat) (q : pystr) (t : option pystr) :
  well_formed q = true -> token_well_formed t = true ->
  scan_once (S (S (S (S fuel)))) (json_dumps_payload q t)
  = Ok (PDict [(lit "q", PStr q); (lit "pageToken", token_value t)], []).
Proof.
  intros Hq Ht. unfold json_dumps_payload.
  change (lit "{" ++ dumps_str (lit "q") ++ lit ": " ++ dumps_str q
          ++ lit ", " ++ dumps_str (lit "pageToken") ++ lit ": "
          ++ dumps_optstr t ++ lit "}")
    with (123 :: 34 :: 113 :: 34 :: 58 :: 32
          :: (dumps_str q
              ++ 44 :: 32 :: 34 :: 112 :: 97 :: 103 :: 101 :: 84 :: 111 :: 107
                 :: 101 :: 110 :: 34 :: 58 :: 32
                 :: (dumps_optstr t ++ [125]))).
  cbn [scan_once]. change (123 =? 34) with false. change (123 =? 123) with true.
  cbv iota. cbn [skip_whitespace IS_WHITESPACE Z.eqb Pos.eqb orb].
  change (34 =? 125) with false. cbv iota.
  cbn [parse_object_items]. change (34 =? 34) with true. cbv iota.
  rewrite scanstring_key_q.
  cbn [bind skip_whitespace IS_WHITESPACE Z.eqb Pos.eqb orb].
  rewrite skip_whitespace_dumps_str, (scan_once_dumps_str _ q _ Hq).
  cbn [bind skip_whitespace IS_WHITESPACE Z.eqb Pos.eqb orb dict_set].
  cbn [parse_object_items]. change (34 =? 34) with true. cbv iota.
  rewrite scanstring_key_pageToken.
  cbn [bind skip_whitespace IS_WHITESPACE Z.eqb Pos.eqb orb].
  rewrite skip_whitespace_dumps_optstr, (scan_once_dumps_optstr _ t [] Ht).
  reflexivity.
Qed.

Lemma json_fuel_enough (s : pystr) :
  (2 <= List.length s)%nat -> exists n, json_fuel s = S (S (S (S n))).
Proof.
  intros H. unfold json_fuel.
  destruct s as [| a [| b s']]; simpl in H; try lia.
  exists (List.length s' + S (S (List.length s' + 0)))%nat.
  simpl. rewrite <- !plus_n_Sm. reflexivity.
Qed.

Lemma json_loads_payload (q : pystr) (t : option pystr) :
  well_formed q = true -> token_well_formed t = true ->
  json_loads (json_dumps_payload q t)
  = Ok (PDict [(lit "q", PStr q); (lit "pageToken", token_value t)]).
Proof.
  intros Hq Ht.
  destruct (json_fuel_enough (json_dumps_payload q t)) as [n Hn].
  { unfold json_dumps_payload. simpl. lia. }
  unfold json_loads. rewrite Hn.
  assert (Hs : exists r, json_dumps_payload q t = 123 :: r)
    by (eexists; reflexivity).
  destruct Hs as [r Hr].
  assert (Hw : skip_whitespace (json_dumps_payload q t) = json_dumps_payload q t)
    by (rewrite Hr; reflexivity).
  rewrite Hw, (scan_once_payload n q t Hq Ht).
  rewrite Hr. reflexivity.
Qed.

Lemma json_dumps_payload_ascii (q : pystr) (t : option pystr) :
  Forall is_ascii (json_dumps_payload q t).
Proof.
  assert (Hlit : forall s, Forall is_ascii (dumps_str s)).
  { intros s. unfold dumps_str. constructor; [unfold is_ascii; lia |].
    apply Forall_app. split; [apply encode_basestring_ascii_is_ascii |].
    constructor; [unfold is_ascii; lia | constructor]. }
  unfold json_dumps_payload.
  repeat (apply Forall_app; split); try apply Hlit;
    try (destruct t; [apply Hlit |]);
    repeat (constructor; try (unfold is_ascii; simpl; lia)).
Qed.

Lemma ascii_is_byte (s : list Z) : Forall is_ascii s -> Forall is_byte s.
Proof.
  apply Forall_impl. unfold is_ascii, is_byte. intros. lia.
Qed.

(** [encode_offset] always returns: the cursor is the Base64 text of the
    payload. *)
Lemma encode_offset_ok (q : pystr) (t : option pystr) :
  encode_offset q t = Ok (urlsafe_b64encode (json_dumps_payload q t)).
Proof.
  unfold encode_offset.
  rewrite (str_encode_ascii _ (json_dumps_payload_ascii q t)). cbn [bind].
  apply bytes_decode_ascii, urlsafe_b64encode_ascii, ascii_is_byte,
    json_dumps_payload_ascii.
Qed.

(** Decoding a cursor made by [encode_offset] gives back the query and the
    token, for well-formed strings. *)
Lemma decode_encode (q : pystr) (t : option pystr) :
  well_formed q = true -> token_well_formed t = true ->
  decode_offset (urlsafe_b64encode (json_dumps_payload q t))
  = (PStr q, token_value t).
Proof.
  intros Hq Ht. unfold decode_offset.
  pose proof (json_dumps_payload_ascii q t) as Ha.
  pose proof (ascii_is_byte _ Ha) as Hb.
  rewrite (str_encode_ascii _ (urlsafe_b64encode_ascii _ Hb)). cbn [bind].
  rewrite (urlsafe_b64_roundtrip _ Hb). cbn [bind].
  rewrite (bytes_decode_ascii _ Ha). cbn [bind].
  rewrite (json_loads_payload q t Hq Ht). reflexivity.
Qed.

(** ** The fuel of [json_loads] is never used up *)

Lemma skip_whitespace_length (s : pystr) :
  (List.length (skip_whitespace s) <= List.length s)%nat.
Proof.
  induction s as [| c s IH]; simpl; [lia |].
  destruct (IS_WHITESPACE c); simpl; lia.
Qed.

Lemma low_after_shorter (c1 c2 : Z) (r2 r3 : pystr) :
  low_after c1 r2 = Some (Ok (c2, r3)) ->
  (List.length r3 < List.length r2)%nat.
Proof.
  unfold low_after.
  destruct r2 as [| b [| u [| g1 [| g2 [| g3 [| g4 r]]]]]]; try discriminate.
  destruct (_ && _); [| discriminate].
  destruct (decode_hex4 g1 g2 g3 g4) as [c |]; [| discriminate].
  destruct (is_low_surrogate c); [| discriminate].
  intros H. inversion H; subst. simpl. lia.
Qed.

Lemma scanstring_step (s : pystr) :
  scanstring s = Raise JSONDecodeError
  \/ (exists r, s = 34 :: r /\ scanstring s = Ok ([], r))
  \/ (exists c t,
        (List.length t < List.length s)%nat
        /\ scanstring s = '(str, rest) <- scanstring t ;; Ok (c :: str, rest)).
Proof.
  destruct s as [| c r]; [left; reflexivity |].
  destruct (Z.eqb_spec c 34) as [-> | H34].
  { right. left. exists r. split; reflexivity. }
  destruct (Z.eqb_spec c 92) as [-> | H92].
  - destruct r as [| e r1]; [left; reflexivity |].
    destruct (Z.eqb_spec e 117) as [-> | H117].
    + destruct r1 as [| h1 [| h2 [| h3 [| h4 r2]]]]; try (left; reflexivity).
      rewrite scanstring_u.
      destruct (is_nil r2); [left; reflexivity |].
      destruct (decode_hex4 h1 h2 h3 h4) as [c1 |]; [| left; reflexivity].
      destruct (low_after c1 r2) as [[[c2 r3] | e] |] eqn:Hl.
      * right. right. exists (Py_UNICODE_JOIN_SURROGATES c1 c2), r3.
        split; [| reflexivity].
        apply low_after_shorter in Hl. simpl. lia.
      * left. reflexivity.
      * right. right. exists c1, r2. split; [simpl; lia | reflexivity].
    + destruct (simple_escape e) as [c1 |] eqn:Hs.
      * right. right. exists c1, r1. split; [simpl; lia |].
        apply scanstring_simple; [apply Z.eqb_neq; exact H117 | exact Hs].
      * left. cbn [scanstring]. change (92 =? 34) with false.
        change (92 =? 92) with true. cbv iota.
        rewrite (proj2 (Z.eqb_neq e 117) H117), Hs. reflexivity.
  - destruct (c <=? 0x1F) eqn:Hc.
    + left. cbn [scanstring].
      rewrite (proj2 (Z.eqb_neq c 34) H34), (proj2 (Z.eqb_neq c 92) H92), Hc.
      reflexivity.
    + right. right. exists c, r. split; [simpl; lia |].
      apply scanstring_plain; [apply Z.eqb_neq; assumption .. | exact Hc].
Qed.

(** [scanstring] raises nothing but [JSONDecodeError] and consumes at least
    the closing quote. *)
Lemma scanstring_result (n : nat) :
  forall s, (List.length s <= n)%nat ->
  match scanstring s with
  | Ok (_, r) => (List.length r < List.length s)%nat
  | Raise e => e = JSONDecodeError
  end.
Proof.
  induction n as [| n IH]; intros s Hn.
  - destruct s; [reflexivity | simpl in Hn; lia].
  - destruct (scanstring_step s) as [H | [(r & -> & H) | (c & t & Hl & H)]];
      rewrite H.
    + reflexivity.
    + simpl. lia.
    + specialize (IH t ltac:(lia)).
      destruct (scanstring t) as [[str rest] | e]; cbn [bind]; [lia | exact IH].
Qed.

Lemma span_digits_length (s : pystr) :
  (List.length (snd (span_digits s)) <= List.length s)%nat.
Proof.
  induction s as [| c s IH]; simpl; [lia |].
  destruct (is_digit c); [| simpl; lia].
  destruct (span_digits s) as [ds rest]. simpl in *. lia.
Qed.

Lemma match_number_result (s : pystr) :
  match match_number s with
  | Ok (_, r) => (List.length r < List.length s)%nat
  | Raise e => e <> RecursionError
  end.
Proof.
  unfold match_number.
  destruct (match_int s) as [[i r1] |] eqn:Hi; [| discriminate].
  assert (H1 : (List.length r1 < List.length s)%nat).
  { unfold match_int in Hi.
    assert (Hgen : forall sign s1, (List.length s1 <= List.length s)%nat ->
              match s1 with
              | c :: r =>
                  if in_range 49 57 c then
                    let '(ds, rest) := span_digits r in Some (sign ++ c :: ds, rest)
                  else if c =? 48 then Some (sign ++ [48], r) else None
              | [] => None
              end = Some (i, r1) -> (List.length r1 < List.length s)%nat).
    { intros sign s1 Hle H. destruct s1 as [| c r]; [discriminate |].
      destruct (in_range 49 57 c).
      - pose proof (span_digits_length r) as Hsp.
        destruct (span_digits r) as [ds rest]. inversion H; subst.
        simpl in *. lia.
      - destruct (c =? 48); [| discriminate]. inversion H; subst. simpl in Hle. lia. }
    destruct s as [| c r]; [discriminate |].
    destruct (c =? 45).
    - apply (Hgen [45] r); [simpl; lia | exact Hi].
    - apply (Hgen [] (c :: r)); [lia | exact Hi]. }
  assert (H2 : (List.length (snd (match_frac r1)) <= List.length r1)%nat).
  { unfold match_frac. destruct r1 as [| p [| d r]]; try (simpl; lia).
    destruct ((p =? 46) && is_digit d); [| simpl; lia].
    pose proof (span_digits_length r) as Hsp.
    destruct (span_digits r) as [ds rest]. simpl in *. lia. }
  destruct (match_frac r1) as [f r2]. cbn [snd] in H2.
  assert (H3 : (List.length (snd (match_exp r2)) <= List.length r2)%nat).
  { unfold match_exp. destruct r2 as [| e r]; [simpl; lia |].
    destruct ((e =? 101) || (e =? 69)); [| simpl; lia].
    assert (Hsign : forall sign r', (List.length r' <= List.length r)%nat ->
              (List.length
                 (snd match span_digits r' with
                      | ([], _) => ([], e :: r)
                      | (ds, rest) => (e :: sign ++ ds, rest)
                      end) <= List.length (e :: r))%nat).
    { intros sign r' Hle. pose proof (span_digits_length r') as Hsp.
      destruct (span_digits r') as [[| d ds] rest]; simpl in *; lia. }
    destruct r as [| c [| c' r']].
    - apply (Hsign [] []). lia.
    - apply (Hsign [] [c]). lia.
    - destruct ((c =? 45) || (c =? 43)).
      + apply (Hsign [c] (c' :: r')). simpl. lia.
      + apply (Hsign [] (c :: c' :: r')). lia. }
  destruct (match_exp r2) as [e r3]. cbn [snd] in H3.
  destruct (is_nil f && is_nil e && _); [discriminate | lia].
Qed.

Lemma strip_prefix_length (p s r : pystr) :
  strip_prefix p s = Some r -> (List.length r + List.length p = List.length s)%nat.
Proof.
  revert s. induction p as [| x p IH]; intros s H.
  - simpl in H. inversion H; subst. simpl. lia.
  - destruct s as [| y s]; [discriminate |]. simpl in H.
    destruct (x =? y); [| discriminate]. apply IH in H. simpl. lia.
Qed.

Lemma match_constant_result (name : pystr) (v : pyval) (s : pystr) :
  name <> [] ->
  match match_constant name v s with
  | Ok (_, r) => (List.length r < List.length s)%nat
  | Raise e => e <> RecursionError
  end.
Proof.
  intros Hn. unfold match_constant.
  destruct (strip_prefix name s) as [rest |] eqn:Hp.
  - apply strip_prefix_length in Hp. destruct name; [congruence |]. simpl in Hp. lia.
  - apply match_number_result.
Qed.

(** With fuel beyond twice the length of the input (and one more for the
    item loops) the scanner does not run out of it, and what it leaves is
    shorter than what it was given. *)
Lemma scanner_fuel (fuel : nat) :
  (forall s, (2 * List.length s < fuel)%nat ->
     match scan_once fuel s with
     | Ok (_, r) => (List.length r < List.length s)%nat
     | Raise e => e <> RecursionError
     end)
  /\ (forall s acc, (2 * List.length s + 1 < fuel)%nat ->
        match parse_array_items fuel s acc with
        | Ok (_, r) => (List.length r < List.length s)%nat
        | Raise e => e <> RecursionError
        end)
  /\ (forall s acc, (2 * List.length s + 1 < fuel)%nat ->
        match parse_object_items fuel s acc with
        | Ok (_, r) => (List.length r < List.length s)%nat
        | Raise e => e <> RecursionError
        end).
Proof.
  induction fuel as [| fuel (IHs & IHa & IHo)].
  { repeat split; intros; lia. }
  split; [| split].
  - intros s Hf. destruct s as [| c r]; [discriminate |].
    cbn [scan_once]. cbn [List.length] in Hf.
    destruct (c =? 34).
    { pose proof (scanstring_result _ r (le_n _)) as Hr.
      destruct (scanstring r) as [[str rest] | e]; cbn [bind].
      - cbn [List.length]. lia.
      - subst e. discriminate. }
    destruct (c =? 123).
    { pose proof (skip_whitespace_length r) as Hw.
      destruct (skip_whitespace r) as [| c' r'] eqn:Hsk; [discriminate |].
      destruct (c' =? 125).
      - cbn [List.length] in *. lia.
      - specialize (IHo (c' :: r') [] ltac:(lia)).
        destruct (parse_object_items fuel (c' :: r') []) as [[v rest] | e];
          [cbn [List.length]; lia | exact IHo]. }
    destruct (c =? 91).
    { pose proof (skip_whitespace_length r) as Hw.
      destruct (skip_whitespace r) as [| c' r'] eqn:Hsk; [discriminate |].
      destruct (c' =? 93).
      - cbn [List.length] in *. lia.
      - specialize (IHa (c' :: r') [] ltac:(lia)).
        destruct (parse_array_items fuel (c' :: r') []) as [[v rest] | e];
          [cbn [List.length]; lia | exact IHa]. }
    repeat match goal with
           | |- context [if ?b then match_constant ?n ?v ?s else _] =>
               destruct b; [apply match_constant_result; discriminate |]
           end.
    apply match_number_result.
  - intros s acc Hf. cbn [parse_array_items].
    specialize (IHs s ltac:(lia)).
    destruct (scan_once fuel s) as [[val r] | e]; cbn [bind]; [| exact IHs].
    pose proof (skip_whitespace_length r) as Hw.
    destruct (skip_whitespace r) as [| c r']; [discriminate |].
    cbn [List.length] in Hw.
    destruct (c =? 93); [lia |].
    destruct (c =? 44); [| discriminate].
    pose proof (skip_whitespace_length r') as Hw'.
    specialize (IHa (skip_whitespace r') (acc ++ [val]) ltac:(lia)).
    destruct (parse_array_items fuel (skip_whitespace r') (acc ++ [val]))
      as [[v rest] | e]; [lia | exact IHa].
  - intros s acc Hf. cbn [parse_object_items].
    destruct s as [| q r0]; [discriminate |].
    destruct (q =? 34); [| discriminate].
    pose proof (scanstring_result _ r0 (le_n _)) as Hr.
    destruct (scanstring r0) as [[key r1] | e]; cbn [bind];
      [| subst e; discriminate].
    pose proof (skip_whitespace_length r1) as Hw1.
    destruct (skip_whitespace r1) as [| colon r2]; [discriminate |].
    destruct (colon =? 58); [| discriminate].
    pose proof (skip_whitespace_length r2) as Hw2.
    cbn [List.length] in *.
    specialize (IHs (skip_whitespace r2) ltac:(lia)).
    destruct (scan_once fuel (skip_whitespace r2)) as [[val r3] | e];
      cbn [bind]; [| exact IHs].
    pose proof (skip_whitespace_length r3) as Hw3.
    destruct (skip_whitespace r3) as [| c r4]; [discriminate |].
    cbn [List.length] in Hw3.
    destruct (c =? 125); [lia |].
    destruct (c =? 44); [| discriminate].
    pose proof (skip_whitespace_length r4) as Hw4.
    specialize (IHo (skip_whitespace r4) (dict_set acc key val) ltac:(lia)).
    destruct (parse_object_items fuel (skip_whitespace r4) (dict_set acc key val))
      as [[v rest] | e]; [lia | exact IHo].
Qed.

(** [json_loads] never fails for lack of fuel. *)
Lemma json_loads_fuel (s : pystr) : json_loads s <> Raise RecursionError.
Proof.
  unfold json_loads.
  assert (H : (x <- scan_once (json_fuel s) (skip_whitespace s) ;;
               (let '(obj, r) := x in
                if is_nil (skip_whitespace r) then Ok obj
                else Raise JSONDecodeError)) <> Raise RecursionError).
  { pose proof (skip_whitespace_length s) as Hw.
    pose proof (proj1 (scanner_fuel (json_fuel s)) (skip_whitespace s)) as Hs.
    unfold json_fuel in Hs at 1. specialize (Hs ltac:(lia)).
    destruct (scan_once (json_fuel s) (skip_whitespace s)) as [[obj r] | e];
      cbn [bind].
    - destruct (is_nil (skip_whitespace r)); discriminate.
    - congruence. }
  destruct s as [| c s']; [exact H |].
  destruct c as [| p | p]; try exact H.
  repeat (destruct p as [p | p |]; try exact H; try discriminate).
Qed.

(** ** [str.strip] and [html.escape] *)

Lemma lstrip_all_space (s : pystr) :
  Forall (fun c => Py_UNICODE_ISSPACE c = true) s -> lstrip s = [].
Proof.
  induction 1 as [| c s Hc _ IH]; simpl; [reflexivity |].
  rewrite Hc. exact IH.
Qed.

Lemma str_strip_all_space (s : pystr) :
  Forall (fun c => Py_UNICODE_ISSPACE c = true) s -> str_strip s = [].
Proof.
  intros H. unfold str_strip. rewrite (lstrip_all_space s H). reflexivity.
Qed.

Lemma str_replace_app (c : Z) (rep a b : pystr) :
  str_replace c rep (a ++ b) = str_replace c rep a ++ str_replace c rep b.
Proof.
  induction a as [| x a IH]; simpl; [reflexivity |].
  rewrite IH, app_assoc. reflexivity.
Qed.

(** The five replacements amount to one pass that rewrites each character
    on its own. *)
Lemma html_escape_flat_map (s : pystr) :
  html_escape s = flat_map html_escape_char s.
Proof.
  unfold html_escape.
  induction s as [| x s IH]; [reflexivity |].
  cbn [str_replace flat_map]. rewrite !str_replace_app, IH. f_equal.
  unfold html_escape_char.
  destruct (Z.eqb_spec x 38) as [-> | H38]; [reflexivity |].
  cbn [str_replace app].
  destruct (Z.eqb_spec x 60) as [-> | H60]; [reflexivity |].
  cbn [str_replace app].
  destruct (Z.eqb_spec x 62) as [-> | H62]; [reflexivity |].
  cbn [str_replace app].
  destruct (Z.eqb_spec x 34) as [-> | H34]; [reflexivity |].
  cbn [str_replace app].
  destruct (Z.eqb_spec x 39) as [-> | H39]; reflexivity.
Qed.

Lemma html_escape_no_markup (s : pystr) : Forall not_markup (html_escape s).
Proof.
  rewrite html_escape_flat_map.
  induction s as [| x s IH]; [constructor |].
  cbn [flat_map]. apply Forall_app. split; [| exact IH].
  unfold html_escape_char.
  repeat match goal with
         | |- Forall _ (if ?x =? ?k then _ else _) => destruct (Z.eqb_spec x k)
         end;
    unfold lit; simpl; repeat (apply Forall_cons; [unfold not_markup; lia |]);
    apply Forall_nil.
Qed.

(** ** The handler *)

Section BotFacts.

Variable YOUTUBE_API_KEY : pystr.
Variable requests_get : pystr -> list (pystr * pyval) -> Z -> res Response.

Let search := youtube_search YOUTUBE_API_KEY requests_get.
Let handler := inline_query_handler YOUTUBE_API_KEY requests_get.

Lemma youtube_search_trace (q : pystr) (tok : pyval) (m : Z) :
  fst (search q tok m) = [EvSearch q tok m].
Proof.
  unfold search, youtube_search, io_bind, emit, lift.
  destruct (requests_get _ _ _) as [r | e]; [| reflexivity].
  destruct (raise_for_status r) as [u | e]; [| reflexivity].
  destruct (json r); reflexivity.
Qed.

(** The search fails exactly on a transport error, an HTTP error status or
    a body that [r.json()] cannot read. *)
Lemma youtube_search_raises (q : pystr) (tok : pyval) (m : Z) (e : exn) :
  snd (search q tok m) = Raise e <->
  exists params,
    params = (let p := [(lit "part", PStr (lit "snippet")); (lit "q", PStr q);
                        (lit "type", PStr (lit "video"));
                        (lit "maxResults", py_int m);
                        (lit "key", PStr YOUTUBE_API_KEY)] in
              if py_truthy tok then dict_set p (lit "pageToken") tok else p)
    /\ (requests_get YOUTUBE_SEARCH_URL params 8 = Raise e
        \/ exists r, requests_get YOUTUBE_SEARCH_URL params 8 = Ok r
                     /\ ((in_range 400 599 (status_code r) = true /\ e = HTTPError)
                         \/ (in_range 400 599 (status_code r) = false
                             /\ json r = Raise e))).
Proof.
  unfold search, youtube_search, io_bind, emit, lift, raise_for_status.
  split.
  - intros H. eexists. split; [reflexivity |].
    destruct (requests_get _ _ _) as [r | e0]; cbn in H.
    + right. exists r. split; [reflexivity |].
      destruct (in_range 400 599 (status_code r)); cbn in H.
      * left. split; [reflexivity | congruence].
      * right. split; [reflexivity |]. destruct (json r); cbn in H; congruence.
    + left. congruence.
  - intros (params & -> & [H | (r & H & [[H1 ->] | [H1 H2]])]); rewrite H; cbn.
    + reflexivity.
    + rewrite H1. reflexivity.
    + rewrite H1, H2. reflexivity.
Qed.

Lemma handler_empty_query (iq : InlineQuery) :
  str_strip (or_empty (query iq)) = [] ->
  handler iq = ([EvAnswer [] true 1 []], Ok tt).
Proof.
  intros H. unfold handler, inline_query_handler. rewrite H. reflexivity.
Qed.

Lemma handler_search_fails (iq : InlineQuery) (t : list event) (e : exn) :
  let q := str_strip (or_empty (query iq)) in
  q <> [] ->
  search q (resolve_page_token q (or_empty (offset iq))) RESULTS_PER_PAGE
  = (t, Raise e) ->
  handler iq = (t ++ [EvPrint e; EvAnswer [] true 1 []], Ok tt).
Proof.
  intros q Hq Hs. unfold handler, inline_query_handler. fold q.
  destruct q as [| c q']; [congruence |]. cbn [is_nil].
  unfold search in Hs. rewrite Hs. reflexivity.
Qed.

Lemma handler_search_ok (iq : InlineQuery) (t : list event) (data : SearchData) :
  let q := str_strip (or_empty (query iq)) in
  q <> [] ->
  search q (resolve_page_token q (or_empty (offset iq))) RESULTS_PER_PAGE
  = (t, Ok data) ->
  handler iq
  = (t ++ [EvAnswer (map_items (get_or (items data) []) []) true 30
             (next_offset_for q data)], Ok tt).
Proof.
  intros q Hq Hs. unfold handler, inline_query_handler. fold q.
  destruct q as [| c q'] eqn:Eq; [congruence |]. cbn [is_nil].
  unfold search in Hs. rewrite Hs. unfold io_try, next_offset_for.
  destruct (is_nil (get_or (nextPageToken data) [])) eqn:Hn; cbn [negb].
  - reflexivity.
  - rewrite encode_offset_ok. reflexivity.
Qed.

End BotFacts.

(** ** The loop over the items *)

Lemma map_items_acc (l : list Item) (acc : list InlineQueryResultArticle) :
  map_items l acc = acc ++ flat_map card_of l.
Proof.
  revert acc. induction l as [| it l IH]; intros acc; cbn [map_items flat_map].
  - rewrite app_nil_r. reflexivity.
  - unfold card_of at 1. destruct (make_result it) as [card |].
    + rewrite IH, <- app_assoc. reflexivity.
    + rewrite IH. reflexivity.
Qed.

Lemma map_items_length (l : list Item) :
  (List.length (map_items l []) <= List.length l)%nat.
Proof.
  rewrite map_items_acc. cbn [app].
  induction l as [| it l IH]; [apply le_n |].
  cbn [flat_map]. rewrite length_app. unfold card_of at 1.
  destruct (make_result it); cbn [List.length]; lia.
Qed.

Lemma make_result_none (it : Item) :
  make_result it = None <-> or_empty (videoId (item_id it)) = [].
Proof.
  unfold make_result.
  destruct (or_empty (videoId (item_id it))) as [| c v]; cbn [is_nil]; split;
    congruence.
Qed.

Lemma make_result_some (it : Item) (card : InlineQueryResultArticle) :
  make_result it = Some card ->
  videoId (item_id it) = Some (article_id card) /\ article_id card <> [].
Proof.
  unfold make_result.
  destruct (videoId (item_id it)) as [v |] eqn:Hv; cbn [or_empty get_or].
  - destruct v as [| c v]; cbn [is_nil]; [discriminate |].
    intros H. inversion H; subst. cbn. split; [reflexivity | discriminate].
  - cbn [is_nil]. discriminate.
Qed.

(** ** The handler on any JSON body *)

Section JsonFacts.

Variable str_of : pyval -> pystr.
Variable dumps_other : pyval -> pystr.
Variable YOUTUBE_API_KEY : pystr.
Variable requests_get : pystr -> list (pystr * pyval) -> Z -> res JsonResponse.

Let search := youtube_search_json YOUTUBE_API_KEY requests_get.
Let handler :=
  inline_query_handler_json str_of dumps_other YOUTUBE_API_KEY requests_get.

Lemma youtube_search_json_eq (q : pystr) (tok : pyval) (m : Z) :
  search q tok m
  = ([JsSearch q tok m],
     r <- requests_get YOUTUBE_SEARCH_URL
            (search_params YOUTUBE_API_KEY q tok m) 8 ;;
     _ <- js_raise_for_status r ;;
     js_json r).
Proof.
  unfold search, youtube_search_json, search_params, js_bind, js_emit, js_lift.
  destruct (requests_get _ _ _) as [r | e]; cbn [bind app]; [| reflexivity].
  destruct (js_raise_for_status r) as [u | e]; cbn [bind app]; [| reflexivity].
  destruct (js_json r); reflexivity.
Qed.

(** The search raises exactly on a transport error, an HTTP error status
    (400 to 599) or a body that [r.json()] cannot read. *)
Lemma youtube_search_json_raises (q : pystr) (tok : pyval) (m : Z) (e : exn) :
  snd (search q tok m) = Raise e <->
  (requests_get YOUTUBE_SEARCH_URL (search_params YOUTUBE_API_KEY q tok m) 8
   = Raise e
   \/ exists r,
        requests_get YOUTUBE_SEARCH_URL (search_params YOUTUBE_API_KEY q tok m) 8
        = Ok r
        /\ ((400 <= js_status_code r <= 599 /\ e = HTTPError)
            \/ (~ 400 <= js_status_code r <= 599 /\ js_json r = Raise e))).
Proof.
  rewrite youtube_search_json_eq. cbn [snd].
  unfold js_raise_for_status, in_range. split.
  - intros H. destruct (requests_get _ _ _) as [r | e0]; cbn [bind] in H.
    + right. exists r. split; [reflexivity |].
      destruct (Z.leb_spec 400 (js_status_code r));
        destruct (Z.leb_spec (js_status_code r) 599); cbn in H.
      * left. split; [lia | congruence].
      * right. split; [lia | exact H].
      * right. split; [lia | exact H].
      * right. split; [lia | exact H].
    + left. congruence.
  - intros [H | (r & H & [[H1 ->] | [H1 H2]])]; rewrite H; cbn [bind].
    + reflexivity.
    + destruct (Z.leb_spec 400 (js_status_code r));
        destruct (Z.leb_spec (js_status_code r) 599); cbn; try lia; reflexivity.
    + destruct (Z.leb_spec 400 (js_status_code r));
        destruct (Z.leb_spec (js_status_code r) 599); cbn; try lia; exact H2.
Qed.

Lemma handler_json_empty_query (iq : InlineQuery) :
  str_strip (or_empty (query iq)) = [] ->
  handler iq = ([JsAnswer [] true 1 []], Ok tt).
Proof.
  intros H. unfold handler, inline_query_handler_json. rewrite H. reflexivity.
Qed.

Lemma handler_json_search_fails (iq : InlineQuery) (e : exn) :
  let q := str_strip (or_empty (query iq)) in
  let tok := resolve_page_token q (or_empty (offset iq)) in
  q <> [] ->
  snd (search q tok RESULTS_PER_PAGE) = Raise e ->
  handler iq
  = ([JsSearch q tok RESULTS_PER_PAGE; JsPrint e; JsAnswer [] true 1 []], Ok tt).
Proof.
  intros q tok Hq Hs. unfold handler, inline_query_handler_json. fold q. fold tok.
  destruct q as [| c q']; [congruence |]. cbn [is_nil].
  fold search. rewrite youtube_search_json_eq in Hs |- *. cbn [snd] in Hs.
  rewrite Hs. reflexivity.
Qed.

Lemma handler_json_page
  (iq : InlineQuery) (data : pyval) (results : list JsonArticle) (off : pystr) :
  let q := str_strip (or_empty (query iq)) in
  let tok := resolve_page_token q (or_empty (offset iq)) in
  q <> [] ->
  snd (search q tok RESULTS_PER_PAGE) = Ok data ->
  read_page str_of dumps_other q data = Ok (results, off) ->
  handler iq
  = ([JsSearch q tok RESULTS_PER_PAGE; JsAnswer results true 30 off], Ok tt).
Proof.
  intros q tok Hq Hs Hp. unfold handler, inline_query_handler_json. fold q. fold tok.
  destruct q as [| c q'] eqn:Eq; [congruence |]. cbn [is_nil].
  fold search. rewrite youtube_search_json_eq in Hs |- *. cbn [snd] in Hs.
  rewrite Hs. unfold js_try, js_bind, js_lift, js_emit. rewrite Hp. reflexivity.
Qed.

Lemma handler_json_read_fails (iq : InlineQuery) (data : pyval) (e : exn) :
  let q := str_strip (or_empty (query iq)) in
  let tok := resolve_page_token q (or_empty (offset iq)) in
  q <> [] ->
  snd (search q tok RESULTS_PER_PAGE) = Ok data ->
  read_page str_of dumps_other q data = Raise e ->
  handler iq = ([JsSearch q tok RESULTS_PER_PAGE], Raise e).
Proof.
  intros q tok Hq Hs Hp. unfold handler, inline_query_handler_json. fold q. fold tok.
  destruct q as [| c q'] eqn:Eq; [congruence |]. cbn [is_nil].
  fold search. rewrite youtube_search_json_eq in Hs |- *. cbn [snd] in Hs.
  rewrite Hs. unfold js_try, js_bind, js_lift, js_emit. rewrite Hp. reflexivity.
Qed.

(** The four ways the handler ends. *)
Lemma handler_json_cases (iq : InlineQuery) :
  let q := str_strip (or_empty (query iq)) in
  let tok := resolve_page_token q (or_empty (offset iq)) in
  (q = [] /\ handler iq = ([JsAnswer [] true 1 []], Ok tt))
  \/ (q <> [] /\ exists e,
        snd (search q tok RESULTS_PER_PAGE) = Raise e
        /\ handler iq
           = ([JsSearch q tok RESULTS_PER_PAGE; JsPrint e; JsAnswer [] true 1 []],
              Ok tt))
  \/ (q <> [] /\ exists data results off,
        snd (search q tok RESULTS_PER_PAGE) = Ok data
        /\ read_page str_of dumps_other q data = Ok (results, off)
        /\ handler iq
           = ([JsSearch q tok RESULTS_PER_PAGE; JsAnswer results true 30 off],
              Ok tt))
  \/ (q <> [] /\ exists data e,
        snd (search q tok RESULTS_PER_PAGE) = Ok data
        /\ read_page str_of dumps_other q data = Raise e
        /\ handler iq = ([JsSearch q tok RESULTS_PER_PAGE], Raise e)).
Proof.
  cbv zeta.
  destruct (str_strip (or_empty (query iq))) as [| c q'] eqn:Eq.
  - left. split; [reflexivity |]. apply handler_json_empty_query. exact Eq.
  - right.
    assert (Hq : str_strip (or_empty (query iq)) <> []) by congruence.
    set (tok := resolve_page_token (c :: q') (or_empty (offset iq))).
    destruct (snd (search (c :: q') tok RESULTS_PER_PAGE)) as [data | e] eqn:Hs.
    + right.
      destruct (read_page str_of dumps_other (c :: q') data)
        as [[results off] | e] eqn:Hp.
      * left. split; [discriminate |]. exists data, results, off.
        split; [reflexivity |]. split; [exact Hp |].
        pose proof (handler_json_page iq data results off Hq) as H.
        cbv zeta in H. rewrite Eq in H. apply H; assumption.
      * right. split; [discriminate |]. exists data, e.
        split; [reflexivity |]. split; [exact Hp |].
        pose proof (handler_json_read_fails iq data e Hq) as H.
        cbv zeta in H. rewrite Eq in H. apply H; assumption.
    + left. split; [discriminate |]. exists e. split; [reflexivity |].
      pose proof (handler_json_search_fails iq e Hq) as H.
      cbv zeta in H. rewrite Eq in H. apply H. exact Hs.
Qed.

(** *** The loop over the items *)





End JsonFacts.

(** *** A body of the documented shape

    On the JSON value of a response read as a record, the handler on JSON
    does what [inline_query_handler] does: the same searches, the same
    printed error, the same answers, and it returns. *)

Lemma make_result_json_refines (str_of : pyval -> pystr) (it : Item) :
  make_result_json str_of (json_of_item it)
  = Ok (option_map json_of_article (make_result it)).
Proof.
  destruct it as [[vid] [ttl ch desc th]].
  destruct vid as [[| c0 vid] |]; [reflexivity | | reflexivity].
  destruct ttl as [ttl |]; destruct ch as [[| c1 ch] |];
    destruct desc as [[| c2 desc] |];
    destruct th as [[[[[u1 |]] |] [[[u2 |]] |]] |]; reflexivity.
Qed.

Lemma map_items_json_refines (str_of : pyval -> pystr)
  (l : list Item) (acc : list InlineQueryResultArticle) :
  map_items_json str_of (map json_of_item l) (map json_of_article acc)
  = Ok (map json_of_article (map_items l acc)).
Proof.
  revert acc. induction l as [| it l IH]; intros acc; [reflexivity |].
  cbn [map map_items_json map_items]. rewrite make_result_json_refines.
  cbn [bind]. destruct (make_result it) as [card |]; cbn [option_map].
  - rewrite <- IH, map_app. reflexivity.
  - apply IH.
Qed.

Lemma json_of_data_items (data : SearchData) (dflt : pyval) :
  py_get_default (json_of_data data) (lit "items") dflt
  = Ok (match items data with
        | Some l => PList (map json_of_item l)
        | None => dflt
        end).
Proof. destruct data as [[l |] [tok |]]; reflexivity. Qed.

Lemma json_of_data_token (data : SearchData) (dflt : pyval) :
  py_get_default (json_of_data data) (lit "nextPageToken") dflt
  = Ok (match nextPageToken data with
        | Some tok => PStr tok
        | None => dflt
        end).
Proof. destruct data as [[l |] [tok |]]; reflexivity. Qed.

Lemma read_page_refines (str_of dumps_other : pyval -> pystr)
  (q : pystr) (data : SearchData) :
  read_page str_of dumps_other q (json_of_data data)
  = Ok (map json_of_article (map_items (get_or (items data) []) []),
        next_offset_for q data).
Proof.
  unfold read_page, next_offset_for.
  rewrite json_of_data_items, json_of_data_token. cbn [bind].
  assert (Hi : py_iter (match items data with
                        | Some l => PList (map json_of_item l)
                        | None => PList []
                        end)
               = Ok (map json_of_item (get_or (items data) []))).
  { destruct (items data); reflexivity. }
  rewrite Hi. cbn [bind].
  rewrite (map_items_json_refines str_of _ []). cbn [bind].
  destruct (nextPageToken data) as [[| c tok] |]; cbn [get_or is_nil py_truthy negb];
    [reflexivity | | reflexivity].
  cbn [encode_offset_json]. rewrite encode_offset_ok. reflexivity.
Qed.

Lemma handler_json_refines (str_of dumps_other : pyval -> pystr) (key : pystr)
  (net : pystr -> list (pystr * pyval) -> Z -> res Response) (iq : InlineQuery) :
  inline_query_handler_json str_of dumps_other key
    (fun u params timeout => json_of_response (net u params timeout)) iq
  = (map json_of_event (fst (inline_query_handler key net iq)),
     snd (inline_query_handler key net iq)).
Proof.
  unfold inline_query_handler_json, inline_query_handler.
  destruct (str_strip (or_empty (query iq))) as [| c q]; [reflexivity |].
  cbn [is_nil].
  unfold youtube_search_json, youtube_search, js_try, io_try, js_bind, io_bind,
    js_emit, emit, js_lift, lift, io_ret.
  destruct (net _ _ _) as [r | e]; cbn [json_of_response]; [| reflexivity].
  unfold js_raise_for_status, raise_for_status. cbn [js_status_code js_json].
  destruct (in_range 400 599 (status_code r)); [reflexivity |].
  destruct (json r) as [data | e]; [| reflexivity].
  cbn [app]. rewrite read_page_refines. unfold next_offset_for.
  destruct (is_nil (get_or (nextPageToken data) [])); cbn [negb].
  - reflexivity.
  - rewrite encode_offset_ok. reflexivity.
Qed.

(** ** The claims *)

(** C1 (as stated, refuted): the round trip fails for a query that holds a
    high surrogate directly followed by a low surrogate as two code points;
    [json.loads] joins the two escapes into one character. *)
Lemma cursor_roundtrip_surrogate_pair :
  [0xD83D; 0xDE00] <> []
  /\ roundtrip [0xD83D; 0xDE00] (Some (lit "T"))
     = Ok (PStr [0x1F600], PStr (lit "T"))
  /\ roundtrip [0xD83D; 0xDE00] (Some (lit "T"))
     <> Ok (PStr [0xD83D; 0xDE00], PStr (lit "T")).
Proof.
  split; [discriminate |].
  assert (H : roundtrip [0xD83D; 0xDE00] (Some (lit "T"))
              = Ok (PStr [0x1F600], PStr (lit "T")))
    by (vm_compute; reflexivity).
  split; [exact H |]. rewrite H. discriminate.
Qed.

(** C1 (amended): for every query [Q] and token [T] that are well formed
    (code points in range, no high surrogate directly followed by a low
    one; every string of Unicode scalar values is such),
    [decode_offset(encode_offset(Q, T))] returns exactly [(Q, T)]. *)
Theorem cursor_roundtrip (Q T : pystr) :
  well_formed Q = true -> well_formed T = true ->
  roundtrip Q (Some T) = Ok (PStr Q, PStr T).
Proof.
  intros HQ HT. unfold roundtrip. rewrite encode_offset_ok. cbn [bind].
  rewrite (decode_encode Q (Some T) HQ HT). reflexivity.
Qed.

Lemma cursor_roundtrip_witness :
  roundtrip [108; 111; 45; 102; 105; 32; 0xE9; 0x1F600; 34; 92; 10; 0xD83D]
    (Some (lit "CAUQAA"))
  = Ok (PStr [108; 111; 45; 102; 105; 32; 0xE9; 0x1F600; 34; 92; 10; 0xD83D],
        PStr (lit "CAUQAA")).
Proof.
  apply cursor_roundtrip; reflexivity.
Defined.

(** C2 (as stated, refuted): with an empty query and an offset that decodes
    to that same empty query and a token, no search is made at all. *)
Lemma continuation_empty_query_counterexample :
  let iq := {| query := Some [];
               offset := Some (lit "eyJxIjogIiIsICJwYWdlVG9rZW4iOiAiVCJ9") |} in
  or_empty (offset iq) <> []
  /\ decode_offset (or_empty (offset iq))
     = (PStr (str_strip (or_empty (query iq))), PStr (lit "T"))
  /\ search_calls (fst (inline_query_handler example_key net_down iq)) = [].
Proof.
  cbv zeta. split; [discriminate |]. split; vm_compute; reflexivity.
Qed.

(** C2 (amended): for every inline request with a non-empty offset and a
    non-empty trimmed query [q]: if the offset decodes to [(q, T)], the one
    search made is called with continuation token [T]; if the decoded query
    is not [q] (a different query, or a failed decoding, which gives
    [(None, None)]), the one search made is called with no token. *)
Theorem continuation_resolution
  (key : pystr) (net : pystr -> list (pystr * pyval) -> Z -> res Response)
  (iq : InlineQuery) :
  or_empty (offset iq) <> [] ->
  str_strip (or_empty (query iq)) <> [] ->
  (forall T,
      decode_offset (or_empty (offset iq))
      = (PStr (str_strip (or_empty (query iq))), T) ->
      search_calls (fst (inline_query_handler key net iq))
      = [(str_strip (or_empty (query iq)), T)])
  /\ (fst (decode_offset (or_empty (offset iq)))
      <> PStr (str_strip (or_empty (query iq))) ->
      search_calls (fst (inline_query_handler key net iq))
      = [(str_strip (or_empty (query iq)), PNone)]).
Proof.
  intros Hoff Hq.
  set (q := str_strip (or_empty (query iq))) in *.
  set (off := or_empty (offset iq)) in *.
  assert (Hcalls : search_calls (fst (inline_query_handler key net iq))
                   = [(q, resolve_page_token q off)]).
  { pose proof (youtube_search_trace key net q (resolve_page_token q off)
                  RESULTS_PER_PAGE) as Ht.
    destruct (youtube_search key net q (resolve_page_token q off)
                RESULTS_PER_PAGE) as [t [data | e]] eqn:Hs;
      cbn [fst] in Ht; subst t.
    - rewrite (handler_search_ok key net iq _ data Hq Hs). reflexivity.
    - rewrite (handler_search_fails key net iq _ e Hq Hs). reflexivity. }
  rewrite Hcalls. unfold resolve_page_token.
  destruct off as [| c off']; [congruence |]. cbn [is_nil negb].
  split.
  - intros T HT. rewrite HT.
    rewrite (proj2 (py_eq_str_eq (PStr q) q) eq_refl). reflexivity.
  - intros Hne. destruct (decode_offset (c :: off')) as [oq otoken].
    cbn [fst] in Hne.
    destruct (py_eq_str oq q) eqn:He; [| reflexivity].
    apply py_eq_str_eq in He. congruence.
Qed.

Lemma continuation_resolution_witness :
  search_calls
    (fst (inline_query_handler example_key net_down
            {| query := Some (lit " lofi beats ");
               offset := Some (lit "eyJxIjogImxvZmkgYmVhdHMiLCAicGFnZVRva2VuIjogIlRPS0VOMSJ9") |}))
  = [(lit "lofi beats", PStr (lit "TOKEN1"))]
  /\ search_calls
       (fst (inline_query_handler example_key net_down
               {| query := Some (lit "cats");
                  offset := Some (lit "eyJxIjogImxvZmkgYmVhdHMiLCAicGFnZVRva2VuIjogIlRPS0VOMSJ9") |}))
     = [(lit "cats", PNone)].
Proof.
  split.
  - apply (proj1 (continuation_resolution example_key net_down
                    {| query := Some (lit " lofi beats ");
                       offset := Some (lit "eyJxIjogImxvZmkgYmVhdHMiLCAicGFnZVRva2VuIjogIlRPS0VOMSJ9") |}
                    ltac:(discriminate) ltac:(discriminate))).
    vm_compute. reflexivity.
  - apply (proj2 (continuation_resolution example_key net_down
                    {| query := Some (lit "cats");
                       offset := Some (lit "eyJxIjogImxvZmkgYmVhdHMiLCAicGFnZVRva2VuIjogIlRPS0VOMSJ9") |}
                    ltac:(discriminate) ltac:(discriminate))).
    vm_compute. discriminate.
Defined.

(** C3 (as stated, refuted): with an absent token [encode_offset] still
    returns the Base64 text of a payload, not the empty string. *)
Lemma encode_absent_token_counterexample :
  encode_offset (lit "cats") None
  = Ok (lit "eyJxIjogImNhdHMiLCAicGFnZVRva2VuIjogbnVsbH0=")
  /\ encode_offset (lit "cats") None <> Ok [].
Proof.
  assert (H : encode_offset (lit "cats") None
              = Ok (lit "eyJxIjogImNhdHMiLCAicGFnZVRva2VuIjogbnVsbH0="))
    by (vm_compute; reflexivity).
  split; [exact H |]. rewrite H. discriminate.
Qed.

(** C3 (amended): the empty next offset for an absent continuation token
    comes from the handler, not from the codec: after a successful search
    whose response has no (or an empty) [nextPageToken], the handler answers
    with [next_offset == ""]; [encode_offset(Q, None)] itself is never the
    empty string, it is the cursor of the payload whose [pageToken] is
    null. *)
Theorem absent_token_next_offset
  (key : pystr) (net : pystr -> list (pystr * pyval) -> Z -> res Response)
  (iq : InlineQuery) (t : list event) (data : SearchData) :
  str_strip (or_empty (query iq)) <> [] ->
  youtube_search key net (str_strip (or_empty (query iq)))
    (resolve_page_token (str_strip (or_empty (query iq))) (or_empty (offset iq)))
    RESULTS_PER_PAGE = (t, Ok data) ->
  get_or (nextPageToken data) [] = [] ->
  inline_query_handler key net iq
  = (t ++ [EvAnswer (map_items (get_or (items data) []) []) true 30 []], Ok tt)
  /\ forall Q, exists c, encode_offset Q None = Ok c /\ c <> [].
Proof.
  intros Hq Hs Hn. split.
  - rewrite (handler_search_ok key net iq t data Hq Hs).
    unfold next_offset_for. rewrite Hn. reflexivity.
  - intros Q. rewrite encode_offset_ok. eexists. split; [reflexivity |].
    unfold json_dumps_payload. simpl. discriminate.
Qed.

Lemma absent_token_next_offset_witness :
  inline_query_handler example_key
    (net_returning {| items := Some []; nextPageToken := None |})
    {| query := Some (lit "cats"); offset := None |}
  = ([EvSearch (lit "cats") PNone 10] ++ [EvAnswer [] true 30 []], Ok tt)
  /\ forall Q, exists c, encode_offset Q None = Ok c /\ c <> [].
Proof.
  apply (absent_token_next_offset example_key
           (net_returning {| items := Some []; nextPageToken := None |})
           {| query := Some (lit "cats"); offset := None |}
           [EvSearch (lit "cats") PNone 10]
           {| items := Some []; nextPageToken := None |}).
  - vm_compute. discriminate.
  - vm_compute. reflexivity.
  - reflexivity.
Defined.

(** C4 (as stated, refuted): the Base64 text of the JSON object
    [{"q": "x"}], a payload with a missing field, does not decode to
    [(None, None)]. *)
Lemma decode_wrong_shape_counterexample :
  decode_offset (lit "eyJxIjogIngifQ==") = (PStr (lit "x"), PNone)
  /\ decode_offset (lit "eyJxIjogIngifQ==") <> (PNone, PNone).
Proof.
  assert (H : decode_offset (lit "eyJxIjogIngifQ==") = (PStr (lit "x"), PNone))
    by (vm_compute; reflexivity).
  split; [exact H |]. rewrite H. discriminate.
Qed.

(** C4 (amended): [decode_offset] returns a pair for every input string and
    never raises.  The pair is [(None, None)] whenever a step of the
    decoding chain fails (UTF-8 encoding, Base64, UTF-8 decoding, JSON) and
    whenever the payload is not a JSON object; for a JSON object it holds
    the values found under ["q"] and ["pageToken"], [None] for a member that
    is missing. *)
Theorem decode_offset_total (offset : pystr) :
  decode_offset offset
  = match cursor_payload offset with
    | Ok (PDict d) => (dict_get d (lit "q"), dict_get d (lit "pageToken"))
    | Ok _ => (PNone, PNone)
    | Raise _ => (PNone, PNone)
    end.
Proof.
  unfold decode_offset, cursor_payload, try_except, dict_get.
  destruct (str_encode offset) as [raw | e]; cbn [bind]; [| reflexivity].
  destruct (urlsafe_b64decode raw) as [bytes | e]; cbn [bind]; [| reflexivity].
  destruct (bytes_decode bytes) as [decoded | e]; cbn [bind]; [| reflexivity].
  destruct (json_loads decoded) as [obj | e]; cbn [bind]; [| reflexivity].
  destruct obj; reflexivity.
Qed.

(** C5 (as stated, refuted): a status outside the 2xx class is not always
    a failure.  [raise_for_status] raises for the statuses 400 to 599 only:
    a response with status 300 and a body that can be read is mapped like a
    200 one, and the answer holds a card and a next offset. *)
Lemma non_2xx_status_counterexample :
  ~ is_2xx 300
  /\ exists card off,
       inline_query_handler_json no_str no_str example_key
         (js_net 300 (Ok example_body))
         {| query := Some (lit "cats"); offset := None |}
       = ([JsSearch (lit "cats") PNone 10; JsAnswer [card] true 30 off], Ok tt)
       /\ off <> [].
Proof.
  split; [unfold is_2xx; lia |].
  eexists. eexists. split; [vm_compute; reflexivity | discriminate].
Qed.

(** C5 (amended): for every request with a non-empty query, when the search
    call raises, that is when [requests.get] raises (a transport error, a
    timeout), when the status is an HTTP error (400 to 599), or when the
    body cannot be parsed, the handler prints the error, answers with an
    empty result list and an empty next offset, and returns normally; and
    it does so in these cases only. *)
Theorem upstream_failure_isolation
  (str_of dumps_other : pyval -> pystr) (key : pystr)
  (net : pystr -> list (pystr * pyval) -> Z -> res JsonResponse)
  (iq : InlineQuery) (e : exn) :
  searched_query iq <> [] ->
  (net YOUTUBE_SEARCH_URL
     (search_params key (searched_query iq) (searched_token iq) RESULTS_PER_PAGE) 8
   = Raise e
   \/ exists r,
        net YOUTUBE_SEARCH_URL
          (search_params key (searched_query iq) (searched_token iq)
             RESULTS_PER_PAGE) 8
        = Ok r
        /\ ((400 <= js_status_code r <= 599 /\ e = HTTPError)
            \/ (~ 400 <= js_status_code r <= 599 /\ js_json r = Raise e)))
  <->
  inline_query_handler_json str_of dumps_other key net iq
  = ([JsSearch (searched_query iq) (searched_token iq) RESULTS_PER_PAGE;
      JsPrint e; JsAnswer [] true 1 []], Ok tt).
Proof.
  intros Hq.
  rewrite <- (youtube_search_json_raises key net (searched_query iq)
                (searched_token iq) RESULTS_PER_PAGE e).
  split.
  - intros Hs. exact (handler_json_search_fails str_of dumps_other key net iq e Hq Hs).
  - intros Hh.
    destruct (handler_json_cases str_of dumps_other key net iq)
      as [[Hn _] | [(_ & e' & Hs & H) | [(_ & data & results & off & _ & _ & H)
                                       | (_ & data & e' & _ & _ & H)]]].
    + contradiction.
    + fold (searched_query iq) in Hs, H. fold (searched_token iq) in Hs, H.
      rewrite H in Hh. inversion Hh; subst. exact Hs.
    + fold (searched_query iq) in H. fold (searched_token iq) in H.
      rewrite H in Hh. discriminate.
    + fold (searched_query iq) in H. fold (searched_token iq) in H.
      rewrite H in Hh. discriminate.
Qed.

Lemma upstream_failure_isolation_witness :
  inline_query_handler_json no_str no_str example_key
    (js_net 503 (Ok example_body))
    {| query := Some (lit "cats"); offset := None |}
  = ([JsSearch (lit "cats") PNone 10; JsPrint HTTPError; JsAnswer [] true 1 []],
     Ok tt).
Proof.
  assert (Hq : searched_query {| query := Some (lit "cats"); offset := None |}
               <> []) by (vm_compute; discriminate).
  apply (proj1 (upstream_failure_isolation no_str no_str example_key
                  (js_net 503 (Ok example_body))
                  {| query := Some (lit "cats"); offset := None |}
                  HTTPError Hq)).
  right. eexists. split; [reflexivity |].
  left. cbn [js_status_code]. split; [lia | reflexivity].
Defined.

(** C6: for every request whose query is absent, empty or made of white
    space only, the handler makes no search call and answers with an empty
    result list and an empty next offset, whatever the offset and the
    network. *)
Theorem empty_query_short_circuit
  (key : pystr) (net : pystr -> list (pystr * pyval) -> Z -> res Response)
  (iq : InlineQuery) :
  Forall (fun c => Py_UNICODE_ISSPACE c = true) (or_empty (query iq)) ->
  inline_query_handler key net iq = ([EvAnswer [] true 1 []], Ok tt)
  /\ search_calls (fst (inline_query_handler key net iq)) = [].
Proof.
  intros H.
  rewrite (handler_empty_query key net iq (str_strip_all_space _ H)).
  split; reflexivity.
Qed.

Lemma empty_query_short_circuit_witness :
  inline_query_handler example_key (net_returning
      {| items := Some fifteen_items; nextPageToken := Some (lit "TOKEN1") |})
    {| query := Some (lit "   ");
       offset := Some (lit "eyJxIjogIiIsICJwYWdlVG9rZW4iOiAiVCJ9") |}
  = ([EvAnswer [] true 1 []], Ok tt)
  /\ search_calls
       (fst (inline_query_handler example_key (net_returning
               {| items := Some fifteen_items;
                  nextPageToken := Some (lit "TOKEN1") |})
               {| query := Some (lit "   ");
                  offset := Some (lit "eyJxIjogIiIsICJwYWdlVG9rZW4iOiAiVCJ9") |}))
     = [].
Proof.
  apply empty_query_short_circuit.
  simpl. repeat constructor.
Defined.

(** C7 (as stated, refuted): a response of 15 items that all have a video
    id gives 15 cards, more than the page size of 10. *)
Lemma page_size_cap_counterexample :
  Z.of_nat (List.length
    (answer_results
       (fst (inline_query_handler example_key
               (net_returning {| items := Some fifteen_items;
                                 nextPageToken := None |})
               {| query := Some (lit "cats"); offset := None |})))) = 15
  /\ ~ (15 <= RESULTS_PER_PAGE).
Proof.
  split; [vm_compute; reflexivity | unfold RESULTS_PER_PAGE; lia].
Qed.

(** C7 (amended): the handler asks the search for at most [page_size]
    results ([max_results = RESULTS_PER_PAGE]) and maps the response without
    truncating it: the number of cards is at most the number of raw items,
    hence at most [page_size] whenever the response holds at most
    [page_size] items. *)
Theorem page_size_requested_not_enforced
  (key : pystr) (net : pystr -> list (pystr * pyval) -> Z -> res Response)
  (iq : InlineQuery) (t : list event) (data : SearchData) :
  str_strip (or_empty (query iq)) <> [] ->
  youtube_search key net (str_strip (or_empty (query iq)))
    (resolve_page_token (str_strip (or_empty (query iq))) (or_empty (offset iq)))
    RESULTS_PER_PAGE = (t, Ok data) ->
  t = [EvSearch (str_strip (or_empty (query iq)))
         (resolve_page_token (str_strip (or_empty (query iq)))
            (or_empty (offset iq))) RESULTS_PER_PAGE]
  /\ answer_results (fst (inline_query_handler key net iq))
     = map_items (get_or (items data) []) []
  /\ (List.length (map_items (get_or (items data) []) [])
      <= List.length (get_or (items data) []))%nat
  /\ (Z.of_nat (List.length (get_or (items data) [])) <= RESULTS_PER_PAGE ->
      Z.of_nat (List.length (answer_results
                               (fst (inline_query_handler key net iq))))
      <= RESULTS_PER_PAGE).
Proof.
  intros Hq Hs.
  assert (Ht : t = [EvSearch (str_strip (or_empty (query iq)))
                      (resolve_page_token (str_strip (or_empty (query iq)))
                         (or_empty (offset iq))) RESULTS_PER_PAGE]).
  { pose proof (youtube_search_trace key net (str_strip (or_empty (query iq)))
                  (resolve_page_token (str_strip (or_empty (query iq)))
                     (or_empty (offset iq))) RESULTS_PER_PAGE) as H.
    rewrite Hs in H. exact H. }
  assert (Hr : answer_results (fst (inline_query_handler key net iq))
               = map_items (get_or (items data) []) []).
  { rewrite (handler_search_ok key net iq t data Hq Hs), Ht.
    cbn. apply app_nil_r. }
  assert (Hl : (List.length (map_items (get_or (items data) []) [])
                <= List.length (get_or (items data) []))%nat).
  { apply map_items_length. }
  repeat split; [exact Ht | exact Hr | exact Hl |].
  intros Hp. rewrite Hr. lia.
Qed.

Lemma page_size_requested_not_enforced_witness :
  exists t data,
    t = [EvSearch (lit "cats") PNone RESULTS_PER_PAGE]
    /\ answer_results
         (fst (inline_query_handler example_key
                 (net_returning {| items := Some (firstn 3 fifteen_items);
                                   nextPageToken := None |})
                 {| query := Some (lit "cats"); offset := None |}))
       = map_items (get_or (items data) []) []
    /\ (List.length (map_items (get_or (items data) []) [])
        <= List.length (get_or (items data) []))%nat
    /\ (Z.of_nat (List.length (get_or (items data) [])) <= RESULTS_PER_PAGE ->
        Z.of_nat (List.length
          (answer_results
             (fst (inline_query_handler example_key
                     (net_returning {| items := Some (firstn 3 fifteen_items);
                                       nextPageToken := None |})
                     {| query := Some (lit "cats"); offset := None |}))))
        <= RESULTS_PER_PAGE).
Proof.
  exists [EvSearch (lit "cats") PNone RESULTS_PER_PAGE].
  exists {| items := Some (firstn 3 fifteen_items); nextPageToken := None |}.
  apply (page_size_requested_not_enforced example_key
           (net_returning {| items := Some (firstn 3 fifteen_items);
                             nextPageToken := None |})
           {| query := Some (lit "cats"); offset := None |}).
  - vm_compute. discriminate.
  - vm_compute. reflexivity.
Defined.




(** C9 (as stated, refuted): a snippet without a title gives the card the
    title "YouTube video", not "untitled"; and a channel title that is
    present but empty is passed over for the description. *)
Lemma mapping_defaults_counterexample :
  option_map title (make_result (example_item (Some (lit "abc123")) None))
  = Some (lit "YouTube video")
  /\ lit "YouTube video" <> lit "untitled"
  /\ option_map description
       (make_result
          {| item_id := {| videoId := Some (lit "abc123") |};
             snippet := example_snippet None (Some []) (Some (lit "about")) |})
     = Some (lit "about")
  /\ lit "about" <> [].
Proof.
  repeat split; try (vm_compute; reflexivity); vm_compute; discriminate.
Qed.

(** C9 (amended): for every mapped item, the card title is the snippet's
    title and defaults to "YouTube video" when the snippet has none; the
    description line is the channel title when it is present and not empty,
    else the first 120 characters of the description, else empty. *)
Theorem mapping_defaults (it : Item) (card : InlineQueryResultArticle) :
  make_result it = Some card ->
  (snippet_title (snippet it) = None -> title card = lit "YouTube video")
  /\ (forall t, snippet_title (snippet it) = Some t -> title card = t)
  /\ (forall ch, channelTitle (snippet it) = Some ch -> ch <> [] ->
                 description card = ch)
  /\ (or_empty (channelTitle (snippet it)) = [] ->
      forall d, snippet_description (snippet it) = Some d ->
                description card = firstn 120 d)
  /\ (or_empty (channelTitle (snippet it)) = [] ->
      snippet_description (snippet it) = None -> description card = []).
Proof.
  unfold make_result.
  destruct (or_empty (videoId (item_id it))) as [| c v]; cbn [is_nil];
    [discriminate |].
  intros H. inversion H; subst; clear H. cbn.
  repeat split.
  - intros ->. reflexivity.
  - intros t ->. reflexivity.
  - intros ch -> Hne. cbn. destruct ch; [congruence | reflexivity].
  - intros Hch d ->. unfold or_empty in Hch. rewrite Hch. reflexivity.
  - intros Hch ->. unfold or_empty in Hch. rewrite Hch. reflexivity.
Qed.

Lemma mapping_defaults_witness :
  exists card,
    make_result {| item_id := {| videoId := Some (lit "abc123") |};
                   snippet := example_snippet None None (Some (lit "about")) |}
    = Some card
    /\ title card = lit "YouTube video"
    /\ description card = firstn 120 (lit "about").
Proof.
  eexists. split; [reflexivity |].
  match goal with
  | |- title ?c = _ /\ _ =>
      destruct (mapping_defaults
                  {| item_id := {| videoId := Some (lit "abc123") |};
                     snippet := example_snippet None None (Some (lit "about")) |}
                  c eq_refl) as (H1 & _ & _ & H4 & _)
  end.
  split.
  - apply H1. reflexivity.
  - apply (H4 eq_refl (lit "about")). reflexivity.
Defined.

(** C10: for every mapped card, the message inserted on selection is the
    HTML-escaped text of the card's title, a newline and the URL
    [https://youtu.be/<videoId>], sent with parse mode HTML; each of the
    characters [&], [<], [>], the double and the single quote of the title is
    replaced by its entity, so the message text holds no raw [<], [>] or
    quote. *)
Theorem inserted_message (it : Item) (card : InlineQueryResultArticle) :
  make_result it = Some card ->
  videoId (item_id it) = Some (article_id card)
  /\ message_text (input_message_content card)
     = html_escape (title card ++ [10] ++ lit "https://youtu.be/" ++ article_id card)
  /\ parse_mode (input_message_content card) = lit "HTML"
  /\ message_text (input_message_content card)
     = flat_map html_escape_char
         (title card ++ [10] ++ lit "https://youtu.be/" ++ article_id card)
  /\ Forall not_markup (message_text (input_message_content card)).
Proof.
  intros Hm. destruct (make_result_some it card Hm) as [Hv _].
  split; [exact Hv |].
  unfold make_result in Hm.
  destruct (or_empty (videoId (item_id it))) as [| c v]; cbn [is_nil] in Hm;
    [discriminate |].
  inversion Hm; subst; clear Hm. cbn [message_text parse_mode
    input_message_content title article_id].
  split; [reflexivity |]. split; [reflexivity |]. split.
  - apply html_escape_flat_map.
  - apply html_escape_no_markup.
Qed.

Lemma inserted_message_witness :
  exists card,
    make_result (example_item (Some (lit "abc123")) (Some (lit "<b>Tom & Jerry</b>")))
    = Some card
    /\ message_text (input_message_content card)
       = lit "&lt;b&gt;Tom &amp; Jerry&lt;/b&gt;" ++ [10]
         ++ lit "https://youtu.be/abc123"
    /\ Forall not_markup (message_text (input_message_content card)).
Proof.
  eexists. split; [reflexivity |].
  match goal with
  | |- message_text (input_message_content ?c) = _ /\ _ =>
      destruct (inserted_message
                  (example_item (Some (lit "abc123"))
                     (Some (lit "<b>Tom & Jerry</b>")))
                  c eq_refl) as (_ & H2 & _ & _ & H5)
  end.
  split; [| exact H5].
  rewrite H2. vm_compute. reflexivity.
Defined.

(** * Further properties of the code *)

(** ** The cursor text *)

Lemma b2a_base64_Forall (P : Z -> Prop) (bs : pybytes) :
  P (tr_there BASE64_PAD) ->
  (forall i, 0 <= i < 64 -> P (tr_there (table_b2a_base64 i))) ->
  Forall is_byte bs -> Forall P (urlsafe_b64encode bs).
Proof.
  intros Hpad Hsx. unfold urlsafe_b64encode, translate2.
  change (fun c => if c =? 43 then 45 else if c =? 47 then 95 else c) with tr_there.
  assert (H0 : is_byte 0) by (unfold is_byte; lia).
  induction bs as [| a | a b | a b c l IH] using list_ind3; intros Hb.
  - constructor.
  - inversion Hb as [| ? ? Ha _]; subst.
    destruct (byte_pair_facts a 0 Ha H0) as (R0 & R1 & _).
    cbn [b2a_base64 map].
    replace (Z.shiftl (Z.land a 3) 4) with (sextet1 a 0)
      by (unfold sextet1; rewrite Z.shiftr_0_l, Z.lor_0_r; reflexivity).
    repeat (apply Forall_cons; [first [apply Hsx; assumption | exact Hpad] |]).
    apply Forall_nil.
  - inversion Hb as [| ? ? Ha Hb']; subst. inversion Hb' as [| ? ? Hbb _]; subst.
    destruct (byte_pair_facts a b Ha Hbb) as (R0 & R1 & _).
    destruct (byte_pair_facts b 0 Hbb H0) as (_ & _ & R2 & _).
    cbn [b2a_base64 map].
    replace (Z.shiftl (Z.land b 15) 2) with (sextet2 b 0)
      by (unfold sextet2; rewrite Z.shiftr_0_l, Z.lor_0_r; reflexivity).
    fold (sextet1 a b).
    repeat (apply Forall_cons; [first [apply Hsx; assumption | exact Hpad] |]).
    apply Forall_nil.
  - inversion Hb as [| ? ? Ha Hb']; subst. inversion Hb' as [| ? ? Hbb Hb'']; subst.
    inversion Hb'' as [| ? ? Hc Hl]; subst.
    destruct (byte_pair_facts a b Ha Hbb) as (R0 & R1 & _).
    destruct (byte_pair_facts b c Hbb Hc) as (_ & _ & R2 & _).
    destruct (byte_pair_facts c b Hc Hbb) as (_ & _ & _ & R3 & _).
    cbn [b2a_base64 map].
    fold (sextet1 a b). fold (sextet2 b c).
    repeat (apply Forall_cons; [apply Hsx; assumption |]).
    apply IH, Hl.
Qed.

Lemma sextet_char_urlsafe (i : Z) :
  0 <= i < 64 -> is_urlsafe_char (tr_there (table_b2a_base64 i)) = true.
Proof.
  intros Hi.
  apply (forallb_zrange (fun i => is_urlsafe_char (tr_there (table_b2a_base64 i))) 64);
    [vm_compute; reflexivity | exact Hi].
Qed.

Lemma b2a_base64_length (bs : pybytes) :
  List.length (b2a_base64 bs) = (4 * ((List.length bs + 2) / 3))%nat.
Proof.
  induction bs as [| a | a b | a b c l IH] using list_ind3; try reflexivity.
  cbn [b2a_base64 List.length]. rewrite IH.
  replace (S (S (S (List.length l))) + 2)%nat
    with ((List.length l + 2) + 1 * 3)%nat by lia.
  rewrite Nat.div_add by lia. lia.
Qed.

Lemma urlsafe_b64encode_length (bs : pybytes) :
  List.length (urlsafe_b64encode bs) = (4 * ((List.length bs + 2) / 3))%nat.
Proof.
  unfold urlsafe_b64encode, translate2. rewrite length_map.
  apply b2a_base64_length.
Qed.

Lemma escape_char_length (c : Z) : (1 <= List.length (escape_char c) <= 12)%nat.
Proof.
  unfold escape_char, ascii_escape_unichar, u_escape.
  repeat match goal with
         | |- context [if ?b then _ else _] => destruct b
         end; cbn [List.length app]; lia.
Qed.

Lemma encode_basestring_ascii_length (s : pystr) :
  (List.length s <= List.length (encode_basestring_ascii s)
   <= 12 * List.length s)%nat.
Proof.
  induction s as [| c s IH]; [simpl; lia |].
  cbn [encode_basestring_ascii List.length]. rewrite length_app.
  pose proof (escape_char_length c). lia.
Qed.

Lemma json_dumps_payload_length (q t : pystr) :
  List.length (json_dumps_payload q (Some t))
  = (26 + List.length (encode_basestring_ascii q)
     + List.length (encode_basestring_ascii t))%nat.
Proof.
  unfold json_dumps_payload, dumps_optstr, dumps_str, lit.
  simpl. rewrite !length_app. simpl. rewrite !length_app. simpl. lia.
Qed.

Lemma cursor_is_urlsafe_text_aux (q : pystr) (t : option pystr) :
  urlsafe_b64encode (json_dumps_payload q t) <> []
  /\ (List.length (urlsafe_b64encode (json_dumps_payload q t)) mod 4 = 0)%nat.
Proof.
  split.
  - intros H. apply (f_equal (@List.length Z)) in H.
    rewrite urlsafe_b64encode_length in H.
    assert (Hl : (2 <= List.length (json_dumps_payload q t))%nat)
      by (unfold json_dumps_payload; simpl; lia).
    assert (1 <= (List.length (json_dumps_payload q t) + 2) / 3)%nat
      by (apply Nat.div_le_lower_bound; lia).
    cbn [List.length] in H. lia.
  - rewrite urlsafe_b64encode_length.
    rewrite Nat.mul_comm. apply Nat.Div0.mod_mul.
Qed.

(** X1: [encode_offset] returns for every query and token, and the cursor
    it returns is never empty, is made of URL-safe Base64 characters only
    (letters, digits, [-], [_], [=]) and has a length that is a multiple of
    four. *)
Theorem cursor_is_urlsafe_text (q : pystr) (t : option pystr) :
  exists c,
    encode_offset q t = Ok c
    /\ c <> []
    /\ forallb is_urlsafe_char c = true
    /\ (List.length c mod 4 = 0)%nat.
Proof.
  rewrite encode_offset_ok. eexists. split; [reflexivity |].
  pose proof (ascii_is_byte _ (json_dumps_payload_ascii q t)) as Hb.
  destruct (cursor_is_urlsafe_text_aux q t) as [Hne Hmod].
  split; [exact Hne |]. split; [| exact Hmod].
  apply forallb_forall. apply Forall_forall.
  apply (b2a_base64_Forall (fun c => is_urlsafe_char c = true));
    [reflexivity | apply sextet_char_urlsafe | exact Hb].
Qed.

(** X2: a cursor encoded with an absent token decodes to the query and an
    absent token: [decode_offset(encode_offset(Q, None)) == (Q, None)] for
    every well-formed [Q]. *)
Theorem cursor_roundtrip_absent_token (Q : pystr) :
  well_formed Q = true -> roundtrip Q None = Ok (PStr Q, PNone).
Proof.
  intros HQ. unfold roundtrip. rewrite encode_offset_ok. cbn [bind].
  rewrite (decode_encode Q None HQ eq_refl). reflexivity.
Qed.

Lemma cursor_roundtrip_absent_token_witness :
  roundtrip (lit "lofi beats") None = Ok (PStr (lit "lofi beats"), PNone).
Proof.
  apply cursor_roundtrip_absent_token. reflexivity.
Defined.

(** X3: the cursor determines the query and the token: two well-formed
    pairs with the same cursor are the same pair. *)
Theorem encode_offset_injective (q1 q2 : pystr) (t1 t2 : option pystr) :
  well_formed q1 = true -> token_well_formed t1 = true ->
  well_formed q2 = true -> token_well_formed t2 = true ->
  encode_offset q1 t1 = encode_offset q2 t2 ->
  q1 = q2 /\ t1 = t2.
Proof.
  intros Hq1 Ht1 Hq2 Ht2 H. rewrite !encode_offset_ok in H.
  assert (Hc : urlsafe_b64encode (json_dumps_payload q1 t1)
               = urlsafe_b64encode (json_dumps_payload q2 t2)).
  { set (c1 := urlsafe_b64encode (json_dumps_payload q1 t1)) in *.
    set (c2 := urlsafe_b64encode (json_dumps_payload q2 t2)) in *.
    congruence. }
  pose proof (decode_encode q1 t1 Hq1 Ht1) as D1.
  pose proof (decode_encode q2 t2 Hq2 Ht2) as D2.
  rewrite Hc, D2 in D1.
  assert (Hq : q2 = q1) by congruence.
  assert (Ht : token_value t2 = token_value t1) by congruence.
  split; [symmetry; exact Hq |].
  destruct t1, t2; simpl in Ht; congruence.
Qed.

Lemma encode_offset_injective_witness :
  lit "cats" = lit "cats" /\ Some (lit "TOKEN1") = Some (lit "TOKEN1").
Proof.
  apply encode_offset_injective; reflexivity.
Defined.

(** X4: the cursor of a query and a token has [4 * ceil(n / 3)] characters,
    where the payload length [n] is 26 plus the lengths of the escaped query
    and token; so it is never shorter than [4/3 * (26 + len(Q) + len(T))]. *)
Theorem cursor_length (q t : pystr) :
  exists c,
    encode_offset q (Some t) = Ok c
    /\ List.length c
       = (4 * ((26 + List.length (encode_basestring_ascii q)
                + List.length (encode_basestring_ascii t) + 2) / 3))%nat
    /\ (4 * (26 + List.length q + List.length t) <= 3 * List.length c)%nat.
Proof.
  rewrite encode_offset_ok. eexists. split; [reflexivity |].
  rewrite urlsafe_b64encode_length, json_dumps_payload_length.
  split; [reflexivity |].
  pose proof (encode_basestring_ascii_length q) as Hq.
  pose proof (encode_basestring_ascii_length t) as Ht.
  set (n := (26 + List.length (encode_basestring_ascii q)
             + List.length (encode_basestring_ascii t))%nat) in *.
  pose proof (Nat.div_mod_eq (n + 2) 3) as Hd.
  pose proof (Nat.mod_upper_bound (n + 2) 3 ltac:(lia)) as Hm.
  lia.
Qed.

(** ** The search request *)

Lemma youtube_search_eq
  (key : pystr) (net : pystr -> list (pystr * pyval) -> Z -> res Response)
  (q : pystr) (tok : pyval) (m : Z) :
  youtube_search key net q tok m
  = ([EvSearch q tok m],
     r <- net YOUTUBE_SEARCH_URL (search_params key q tok m) 8 ;;
     _ <- raise_for_status r ;;
     json r).
Proof.
  unfold youtube_search, search_params, io_bind, emit, lift.
  destruct (net _ _ _) as [r | e]; cbn [bind app]; [| reflexivity].
  destruct (raise_for_status r) as [u | e]; cbn [bind app]; [| reflexivity].
  destruct (json r); reflexivity.
Qed.

(** X5: [youtube_search] sends one GET to the search URL with timeout 8;
    the parameters always hold [part=snippet], [q], [type=video],
    [maxResults] and [key], and hold [pageToken] exactly when the page token
    is truthy: [None] and the empty string are never sent. *)
Theorem search_request_parameters
  (key : pystr) (net : pystr -> list (pystr * pyval) -> Z -> res Response)
  (q : pystr) (tok : pyval) (m : Z) :
  snd (youtube_search key net q tok m)
  = (r <- net YOUTUBE_SEARCH_URL (search_params key q tok m) 8 ;;
     _ <- raise_for_status r ;;
     json r)
  /\ dict_lookup (search_params key q tok m) (lit "part") = Some (PStr (lit "snippet"))
  /\ dict_lookup (search_params key q tok m) (lit "q") = Some (PStr q)
  /\ dict_lookup (search_params key q tok m) (lit "type") = Some (PStr (lit "video"))
  /\ dict_lookup (search_params key q tok m) (lit "maxResults") = Some (py_int m)
  /\ dict_lookup (search_params key q tok m) (lit "key") = Some (PStr key)
  /\ dict_lookup (search_params key q tok m) (lit "pageToken")
     = (if py_truthy tok then Some tok else None)
  /\ py_truthy PNone = false
  /\ py_truthy (PStr []) = false.
Proof.
  split; [rewrite youtube_search_eq; reflexivity |].
  unfold search_params. destruct (py_truthy tok); repeat split; reflexivity.
Qed.

(** X6: [youtube_search] returns the parsed body exactly when the request
    returns a response whose status is outside 400..599 and whose body
    parses; a status from 400 to 599 raises [HTTPError] even when the body
    is valid, and any other status (200, 204, 304, ...) is not an error. *)
Theorem search_succeeds_iff
  (key : pystr) (net : pystr -> list (pystr * pyval) -> Z -> res Response)
  (q : pystr) (tok : pyval) (m : Z) (data : SearchData) :
  snd (youtube_search key net q tok m) = Ok data
  <-> exists r,
        net YOUTUBE_SEARCH_URL (search_params key q tok m) 8 = Ok r
        /\ (status_code r < 400 \/ 599 < status_code r)
        /\ json r = Ok data.
Proof.
  rewrite youtube_search_eq. cbn [snd]. unfold raise_for_status, in_range.
  split.
  - intros H. destruct (net _ _ _) as [r | e]; cbn [bind] in H; [| discriminate].
    exists r. split; [reflexivity |].
    destruct (Z.leb_spec 400 (status_code r));
      destruct (Z.leb_spec (status_code r) 599); cbn in H;
      try discriminate; (split; [lia | exact H]).
  - intros (r & Hr & Hs & Hj). rewrite Hr. cbn [bind].
    destruct (Z.leb_spec 400 (status_code r));
      destruct (Z.leb_spec (status_code r) 599); cbn; try lia; exact Hj.
Qed.

(** ** The outcomes of the handler *)

Lemma handler_search_calls
  (key : pystr) (net : pystr -> list (pystr * pyval) -> Z -> res Response)
  (iq : InlineQuery) :
  str_strip (or_empty (query iq)) <> [] ->
  search_calls (fst (inline_query_handler key net iq))
  = [(str_strip (or_empty (query iq)),
      resolve_page_token (str_strip (or_empty (query iq))) (or_empty (offset iq)))].
Proof.
  intros Hq.
  set (q := str_strip (or_empty (query iq))) in *.
  set (tok := resolve_page_token q (or_empty (offset iq))).
  pose proof (youtube_search_trace key net q tok RESULTS_PER_PAGE) as Ht.
  destruct (youtube_search key net q tok RESULTS_PER_PAGE) as [t [data | e]] eqn:Hs;
    cbn [fst] in Ht; subst t.
  - rewrite (handler_search_ok key net iq _ data Hq Hs). reflexivity.
  - rewrite (handler_search_fails key net iq _ e Hq Hs). reflexivity.
Qed.

(** On responses of the documented shape the handler ends in one of three
    ways: for an empty trimmed query, one empty answer and no search;
    otherwise one search followed either by a printed error and one empty
    answer, or by one answer with the mapped cards. *)
Lemma handler_outcomes
  (key : pystr) (net : pystr -> list (pystr * pyval) -> Z -> res Response)
  (iq : InlineQuery) :
  let q := str_strip (or_empty (query iq)) in
  let tok := resolve_page_token q (or_empty (offset iq)) in
  (q = [] /\ inline_query_handler key net iq = ([EvAnswer [] true 1 []], Ok tt))
  \/ (q <> [] /\ exists e,
        snd (youtube_search key net q tok RESULTS_PER_PAGE) = Raise e
        /\ inline_query_handler key net iq
           = ([EvSearch q tok RESULTS_PER_PAGE; EvPrint e; EvAnswer [] true 1 []],
              Ok tt))
  \/ (q <> [] /\ exists data,
        snd (youtube_search key net q tok RESULTS_PER_PAGE) = Ok data
        /\ inline_query_handler key net iq
           = ([EvSearch q tok RESULTS_PER_PAGE;
               EvAnswer (map_items (get_or (items data) []) []) true 30
                 (next_offset_for q data)], Ok tt)).
Proof.
  cbv zeta.
  destruct (str_strip (or_empty (query iq))) as [| c q'] eqn:Eq.
  - left. split; [reflexivity |]. apply handler_empty_query. exact Eq.
  - right.
    assert (Hq : str_strip (or_empty (query iq)) <> []) by congruence.
    set (tok := resolve_page_token (c :: q') (or_empty (offset iq))).
    pose proof (youtube_search_trace key net (c :: q') tok RESULTS_PER_PAGE) as Ht.
    destruct (youtube_search key net (c :: q') tok RESULTS_PER_PAGE)
      as [t [data | e]] eqn:Hs; cbn [fst] in Ht; subst t.
    + right. split; [discriminate |]. exists data. split; [reflexivity |].
      pose proof (handler_search_ok key net iq
                    [EvSearch (c :: q') tok RESULTS_PER_PAGE] data Hq) as H.
      cbv zeta in H. rewrite Eq in H. apply H. exact Hs.
    + left. split; [discriminate |]. exists e. split; [reflexivity |].
      pose proof (handler_search_fails key net iq
                    [EvSearch (c :: q') tok RESULTS_PER_PAGE] e Hq) as H.
      cbv zeta in H. rewrite Eq in H. apply H. exact Hs.
Qed.

(** X7: on any body, the handler ends in one of four ways.  For an empty
    trimmed query: one empty answer and no search.  Otherwise one search,
    followed by a printed error and one empty answer when the search
    raises; by one answer with the cards and the next offset read from the
    body when the body can be read; and by nothing when reading the body
    raises: the exception leaves the handler and no answer is sent.  So the
    handler searches at most once, answers at most once and does nothing
    after the answer, and it raises only while reading the body of a
    successful search. *)
Theorem handler_json_outcomes
  (str_of dumps_other : pyval -> pystr) (key : pystr)
  (net : pystr -> list (pystr * pyval) -> Z -> res JsonResponse)
  (iq : InlineQuery) :
  (searched_query iq = []
   /\ inline_query_handler_json str_of dumps_other key net iq
      = ([JsAnswer [] true 1 []], Ok tt))
  \/ (searched_query iq <> [] /\ exists e,
        snd (youtube_search_json key net (searched_query iq) (searched_token iq)
               RESULTS_PER_PAGE) = Raise e
        /\ inline_query_handler_json str_of dumps_other key net iq
           = ([JsSearch (searched_query iq) (searched_token iq) RESULTS_PER_PAGE;
               JsPrint e; JsAnswer [] true 1 []], Ok tt))
  \/ (searched_query iq <> [] /\ exists data results off,
        snd (youtube_search_json key net (searched_query iq) (searched_token iq)
               RESULTS_PER_PAGE) = Ok data
        /\ read_page str_of dumps_other (searched_query iq) data
           = Ok (results, off)
        /\ inline_query_handler_json str_of dumps_other key net iq
           = ([JsSearch (searched_query iq) (searched_token iq) RESULTS_PER_PAGE;
               JsAnswer results true 30 off], Ok tt))
  \/ (searched_query iq <> [] /\ exists data e,
        snd (youtube_search_json key net (searched_query iq) (searched_token iq)
               RESULTS_PER_PAGE) = Ok data
        /\ read_page str_of dumps_other (searched_query iq) data = Raise e
        /\ inline_query_handler_json str_of dumps_other key net iq
           = ([JsSearch (searched_query iq) (searched_token iq) RESULTS_PER_PAGE],
              Raise e)).
Proof.
  exact (handler_json_cases str_of dumps_other key net iq).
Qed.

(** X8: every answer of the handler is personal; an answer with cache time
    1 is empty and has an empty next offset, and the only other cache time
    is 30, given to the answer that follows a successful search. *)
Theorem answer_cache_directives
  (key : pystr) (net : pystr -> list (pystr * pyval) -> Z -> res Response)
  (iq : InlineQuery)
  (results : list InlineQueryResultArticle) (p : bool) (c : Z) (off : pystr) :
  In (EvAnswer results p c off) (fst (inline_query_handler key net iq)) ->
  p = true
  /\ ((c = 1 /\ results = [] /\ off = [])
      \/ (c = 30 /\ exists data,
            snd (youtube_search key net (str_strip (or_empty (query iq)))
                   (resolve_page_token (str_strip (or_empty (query iq)))
                      (or_empty (offset iq))) RESULTS_PER_PAGE) = Ok data)).
Proof.
  destruct (handler_outcomes key net iq)
    as [[_ H] | [[_ (e & _ & H)] | [_ (data & Hd & H)]]];
    rewrite H; cbn [fst In]; intros Hin.
  - destruct Hin as [Hin | []]. inversion Hin; subst. split; [reflexivity |].
    left. repeat split; reflexivity.
  - destruct Hin as [Hin | [Hin | [Hin | []]]]; try discriminate.
    inversion Hin; subst. split; [reflexivity |].
    left. repeat split; reflexivity.
  - destruct Hin as [Hin | [Hin | []]]; try discriminate.
    inversion Hin; subst. split; [reflexivity |].
    right. split; [reflexivity |]. exists data. exact Hd.
Qed.

Lemma answer_cache_directives_witness :
  true = true
  /\ ((1 = 1 /\ @nil InlineQueryResultArticle = [] /\ @nil Z = [])
      \/ (1 = 30 /\ exists data,
            snd (youtube_search example_key net_down
                   (str_strip (or_empty (query {| query := Some (lit "cats");
                                                  offset := None |})))
                   (resolve_page_token
                      (str_strip (or_empty (query {| query := Some (lit "cats");
                                                     offset := None |})))
                      (or_empty (offset {| query := Some (lit "cats");
                                           offset := None |})))
                   RESULTS_PER_PAGE) = Ok data)).
Proof.
  apply (answer_cache_directives example_key net_down
           {| query := Some (lit "cats"); offset := None |} [] true 1 []).
  vm_compute. right. right. left. reflexivity.
Defined.

(** X9: an offset that does not decode to the current trimmed query (a
    corrupt cursor, a foreign string, the cursor of another query) is the
    same as no offset: the handler does exactly what it does without one. *)
Theorem stale_offset_is_no_offset
  (key : pystr) (net : pystr -> list (pystr * pyval) -> Z -> res Response)
  (qr : option pystr) (off : pystr) :
  fst (decode_offset off) <> PStr (str_strip (or_empty qr)) ->
  inline_query_handler key net {| query := qr; offset := Some off |}
  = inline_query_handler key net {| query := qr; offset := None |}.
Proof.
  intros Hne. unfold inline_query_handler. cbn [query offset].
  assert (Hr : resolve_page_token (str_strip (or_empty qr)) (or_empty (Some off))
               = resolve_page_token (str_strip (or_empty qr)) (or_empty None)).
  { unfold resolve_page_token. cbn [or_empty get_or is_nil negb].
    destruct (is_nil off); [reflexivity |].
    cbn [negb]. destruct (decode_offset off) as [oq otoken]. cbn [fst] in Hne.
    destruct (py_eq_str oq (str_strip (or_empty qr))) eqn:He; [| reflexivity].
    apply py_eq_str_eq in He. congruence. }
  rewrite Hr. reflexivity.
Qed.

Lemma stale_offset_is_no_offset_witness :
  inline_query_handler example_key (net_status 200)
    {| query := Some (lit "cats");
       offset := Some (lit "eyJxIjogImxvZmkgYmVhdHMiLCAicGFnZVRva2VuIjogIlRPS0VOMSJ9") |}
  = inline_query_handler example_key (net_status 200)
      {| query := Some (lit "cats"); offset := None |}.
Proof.
  apply stale_offset_is_no_offset. vm_compute. discriminate.
Defined.

(** ** Trimming the query *)

Lemma lstrip_split (s : pystr) :
  exists pre, s = pre ++ lstrip s
              /\ Forall (fun c => Py_UNICODE_ISSPACE c = true) pre.
Proof.
  induction s as [| c s (pre & Hs & Hp)].
  - exists []. split; [reflexivity | constructor].
  - cbn [lstrip]. destruct (Py_UNICODE_ISSPACE c) eqn:Hc.
    + exists (c :: pre). split; [cbn; congruence | constructor; assumption].
    + exists []. split; [reflexivity | constructor].
Qed.

Lemma lstrip_head (s : pystr) (c : Z) (r : pystr) :
  lstrip s = c :: r -> Py_UNICODE_ISSPACE c = false.
Proof.
  induction s as [| x s IH]; cbn [lstrip]; [discriminate |].
  destruct (Py_UNICODE_ISSPACE x) eqn:Hx; [exact IH |].
  intros H. inversion H; subst. exact Hx.
Qed.

Lemma lstrip_id (s : pystr) :
  (forall c r, s = c :: r -> Py_UNICODE_ISSPACE c = false) -> lstrip s = s.
Proof.
  destruct s as [| c r]; [reflexivity |]. intros H. cbn [lstrip].
  rewrite (H c r eq_refl). reflexivity.
Qed.

Lemma rstrip_split (s : pystr) : exists suf, s = rstrip s ++ suf.
Proof.
  unfold rstrip. destruct (lstrip_split (rev s)) as (pre & Hs & _).
  exists (rev pre). rewrite <- rev_app_distr, <- Hs, rev_involutive. reflexivity.
Qed.

Lemma str_strip_head (s : pystr) (c : Z) (r : pystr) :
  str_strip s = c :: r -> Py_UNICODE_ISSPACE c = false.
Proof.
  unfold str_strip. intros H.
  destruct (rstrip_split (lstrip s)) as (suf & Hs). rewrite H in Hs.
  apply (lstrip_head s c (r ++ suf)). exact Hs.
Qed.

Lemma str_strip_last (s : pystr) (c : Z) (r : pystr) :
  str_strip s = r ++ [c] -> Py_UNICODE_ISSPACE c = false.
Proof.
  unfold str_strip, rstrip. intros H.
  apply (f_equal (@rev Z)) in H. rewrite rev_involutive, rev_unit in H.
  apply (lstrip_head _ _ _ H).
Qed.

Lemma str_strip_idempotent (s : pystr) : str_strip (str_strip s) = str_strip s.
Proof.
  set (m := str_strip s).
  assert (H1 : lstrip m = m) by (apply lstrip_id; apply str_strip_head).
  unfold str_strip at 1. rewrite H1. unfold rstrip.
  assert (H2 : lstrip (rev m) = rev m).
  { apply lstrip_id. intros c r Hr.
    apply (str_strip_last s c (rev r)). fold m.
    rewrite <- (rev_involutive m), Hr. reflexivity. }
  rewrite H2. apply rev_involutive.
Qed.

Lemma well_formed_app_r (a b : pystr) :
  well_formed (a ++ b) = true -> well_formed b = true.
Proof.
  induction a as [| c a IH]; [trivial |]. cbn [app well_formed]. intros H.
  apply andb_true_iff in H. apply IH, H.
Qed.

Lemma well_formed_app_l (a b : pystr) :
  well_formed (a ++ b) = true -> well_formed a = true.
Proof.
  induction a as [| c a IH]; [reflexivity |]. cbn [app well_formed]. intros H.
  apply andb_true_iff in H. destruct H as [H Hw].
  apply andb_true_iff in H. destruct H as [Hv Hp].
  rewrite Hv, (IH Hw). destruct a as [| c' a']; cbn [starts_low app] in *.
  - rewrite andb_false_r. reflexivity.
  - rewrite Hp. reflexivity.
Qed.

Lemma str_strip_well_formed (s : pystr) :
  well_formed s = true -> well_formed (str_strip s) = true.
Proof.
  intros H. unfold str_strip.
  destruct (lstrip_split s) as (pre & Hs & _).
  destruct (rstrip_split (lstrip s)) as (suf & Hr).
  rewrite Hs in H. apply well_formed_app_r in H.
  rewrite Hr in H. apply well_formed_app_l in H. exact H.
Qed.

(** X10: the query of every search the handler makes is the trimmed query
    of the request: it is not empty, neither starts nor ends with white
    space, and trimming it again changes nothing. *)
Theorem searched_query_is_trimmed
  (key : pystr) (net : pystr -> list (pystr * pyval) -> Z -> res Response)
  (iq : InlineQuery) (q : pystr) (tok : pyval) :
  In (q, tok) (search_calls (fst (inline_query_handler key net iq))) ->
  q = str_strip (or_empty (query iq))
  /\ q <> []
  /\ (forall c r, q = c :: r -> Py_UNICODE_ISSPACE c = false)
  /\ (forall c r, q = r ++ [c] -> Py_UNICODE_ISSPACE c = false)
  /\ str_strip q = q.
Proof.
  intros Hin.
  destruct (str_strip (or_empty (query iq))) as [| c0 q0] eqn:Eq.
  - rewrite (handler_empty_query key net iq Eq) in Hin. destruct Hin.
  - assert (Hq : str_strip (or_empty (query iq)) <> []) by congruence.
    rewrite (handler_search_calls key net iq Hq) in Hin.
    destruct Hin as [Hin | []]. inversion Hin as [[Hq' Ht]]. clear Hin.
    rewrite <- Eq. split; [reflexivity |]. split; [exact Hq |].
    split; [| split].
    + intros c r. apply str_strip_head.
    + intros c r. apply str_strip_last.
    + apply str_strip_idempotent.
Qed.

Lemma searched_query_is_trimmed_witness :
  lit "lofi beats" = str_strip (or_empty (Some (lit "  lofi beats ")))
  /\ lit "lofi beats" <> []
  /\ (forall c r, lit "lofi beats" = c :: r -> Py_UNICODE_ISSPACE c = false)
  /\ (forall c r, lit "lofi beats" = r ++ [c] -> Py_UNICODE_ISSPACE c = false)
  /\ str_strip (lit "lofi beats") = lit "lofi beats".
Proof.
  apply (searched_query_is_trimmed example_key net_down
           {| query := Some (lit "  lofi beats "); offset := None |}
           (lit "lofi beats") PNone).
  vm_compute. left. reflexivity.
Defined.

(** X11: pagination composes.  When a search for a well-formed query
    succeeds with a non-empty well-formed [nextPageToken] [T], the handler
    answers with a non-empty next offset, and a later request with the same
    query and that offset searches with continuation token [T], whatever
    the network does in between. *)
Theorem pagination_continues
  (key : pystr) (net1 net2 : pystr -> list (pystr * pyval) -> Z -> res Response)
  (iq : InlineQuery) (t : list event) (data : SearchData) (T : pystr) :
  str_strip (or_empty (query iq)) <> [] ->
  well_formed (or_empty (query iq)) = true ->
  youtube_search key net1 (str_strip (or_empty (query iq)))
    (resolve_page_token (str_strip (or_empty (query iq))) (or_empty (offset iq)))
    RESULTS_PER_PAGE = (t, Ok data) ->
  nextPageToken data = Some T -> T <> [] -> well_formed T = true ->
  exists results c,
    inline_query_handler key net1 iq = (t ++ [EvAnswer results true 30 c], Ok tt)
    /\ c <> []
    /\ search_calls
         (fst (inline_query_handler key net2
                 {| query := query iq; offset := Some c |}))
       = [(str_strip (or_empty (query iq)), PStr T)].
Proof.
  intros Hq Hwf Hs HT HTne HTwf.
  set (q := str_strip (or_empty (query iq))) in *.
  exists (map_items (get_or (items data) []) []).
  exists (urlsafe_b64encode (json_dumps_payload q (Some T))).
  assert (Hn : next_offset_for q data
               = urlsafe_b64encode (json_dumps_payload q (Some T))).
  { unfold next_offset_for. rewrite HT. cbn [get_or].
    destruct T; [congruence | reflexivity]. }
  assert (Hc : urlsafe_b64encode (json_dumps_payload q (Some T)) <> []).
  { destruct (cursor_is_urlsafe_text_aux q (Some T)) as [Hne _]. exact Hne. }
  split; [| split].
  - rewrite <- Hn. apply (handler_search_ok key net1 iq t data Hq Hs).
  - exact Hc.
  - rewrite (handler_search_calls key net2
               {| query := query iq; offset := Some _ |} Hq).
    cbn [query offset or_empty get_or]. fold (or_empty (query iq)). fold q.
    f_equal. f_equal. unfold resolve_page_token.
    destruct (urlsafe_b64encode (json_dumps_payload q (Some T))) as [| x c] eqn:Ec;
      [congruence |].
    cbn [is_nil negb]. rewrite <- Ec.
    rewrite (decode_encode q (Some T) (str_strip_well_formed _ Hwf) HTwf).
    cbn [token_value]. rewrite (proj2 (py_eq_str_eq (PStr q) q) eq_refl).
    reflexivity.
Qed.

Lemma pagination_continues_witness :
  exists results c,
    inline_query_handler example_key
      (net_returning
         {| items := Some [example_item (Some (lit "abc123")) None;
                           example_item (Some (lit "def456")) None];
            nextPageToken := Some (lit "TOKEN1") |})
      {| query := Some (lit "lofi beats"); offset := None |}
    = ([EvSearch (lit "lofi beats") PNone RESULTS_PER_PAGE]
       ++ [EvAnswer results true 30 c], Ok tt)
    /\ c <> []
    /\ search_calls
         (fst (inline_query_handler example_key net_down
                 {| query := query {| query := Some (lit "lofi beats");
                                      offset := None |};
                    offset := Some c |}))
       = [(str_strip (or_empty (query {| query := Some (lit "lofi beats");
                                         offset := None |})),
           PStr (lit "TOKEN1"))].
Proof.
  apply (pagination_continues example_key
           (net_returning
              {| items := Some [example_item (Some (lit "abc123")) None;
                                example_item (Some (lit "def456")) None];
                 nextPageToken := Some (lit "TOKEN1") |})
           net_down
           {| query := Some (lit "lofi beats"); offset := None |}
           [EvSearch (lit "lofi beats") PNone RESULTS_PER_PAGE]
           {| items := Some [example_item (Some (lit "abc123")) None;
                             example_item (Some (lit "def456")) None];
              nextPageToken := Some (lit "TOKEN1") |}
           (lit "TOKEN1")).
  - vm_compute. discriminate.
  - reflexivity.
  - vm_compute. reflexivity.
  - reflexivity.
  - vm_compute. discriminate.
  - reflexivity.
Defined.

(** ** Lenient decoding *)

Lemma a2b_base64_loop_filter (data : pybytes) :
  forall quad_pos leftchar pads out,
    a2b_base64_loop (filter a2b_looks_at data) quad_pos leftchar pads out
    = a2b_base64_loop data quad_pos leftchar pads out.
Proof.
  induction data as [| ch rest IH]; intros quad_pos leftchar pads out;
    [reflexivity |].
  cbn [filter]. unfold a2b_looks_at at 1.
  destruct (ch =? BASE64_PAD) eqn:Hpad; cbn [orb].
  - cbn [a2b_base64_loop]. rewrite Hpad.
    destruct (2 <=? quad_pos); [destruct (4 <=? quad_pos + (pads + 1)) |];
      rewrite ?IH; reflexivity.
  - destruct (table_a2b_base64 ch <? 64) eqn:Hlt.
    + cbn [a2b_base64_loop]. rewrite Hpad.
      destruct (64 <=? table_a2b_base64 ch); [apply IH |].
      destruct (quad_pos =? 0); [apply IH |].
      destruct (quad_pos =? 1); [apply IH |].
      destruct (quad_pos =? 2); apply IH.
    + rewrite IH. cbn [a2b_base64_loop]. rewrite Hpad.
      apply Z.ltb_ge in Hlt.
      destruct (Z.leb_spec 64 (table_a2b_base64 ch)); [reflexivity | lia].
Qed.

Lemma is_base64_char_tr_back (c : Z) :
  is_byte c -> a2b_looks_at (tr_back c) = is_base64_char c.
Proof.
  intros Hc.
  assert (H : (fun c => Bool.eqb (a2b_looks_at (tr_back c)) (is_base64_char c)) c
              = true).
  { apply (forallb_zrange
             (fun c => Bool.eqb (a2b_looks_at (tr_back c)) (is_base64_char c)) 256);
      [vm_compute; reflexivity | exact Hc]. }
  apply eqb_prop in H. exact H.
Qed.

Lemma filter_map_tr_back (s : pybytes) :
  Forall is_byte s ->
  filter a2b_looks_at (map tr_back s) = map tr_back (filter is_base64_char s).
Proof.
  induction 1 as [| c s Hc _ IH]; [reflexivity |].
  cbn [map filter]. rewrite (is_base64_char_tr_back c Hc), IH.
  destruct (is_base64_char c); reflexivity.
Qed.

Lemma urlsafe_b64decode_filter (s : pybytes) :
  Forall is_byte s ->
  urlsafe_b64decode (filter is_base64_char s) = urlsafe_b64decode s.
Proof.
  intros Hs. unfold urlsafe_b64decode, a2b_base64, translate2.
  change (fun c => if c =? 45 then 43 else if c =? 95 then 47 else c) with tr_back.
  rewrite <- (filter_map_tr_back s Hs). apply a2b_base64_loop_filter.
Qed.

Lemma Forall_filter {A} (P : A -> Prop) (f : A -> bool) (l : list A) :
  Forall P l -> Forall P (filter f l).
Proof.
  induction 1 as [| x l Hx _ IH]; [constructor |].
  cbn [filter]. destruct (f x); [constructor; assumption | exact IH].
Qed.

(** X12: [decode_offset] skips every ASCII character of the offset that is
    neither a Base64 character (of the URL-safe or of the standard
    alphabet) nor the padding [=]: spaces, line breaks and other foreign
    characters in a cursor do not change what it decodes to. *)
Theorem decode_offset_skips_foreign_characters (off : pystr) :
  Forall is_ascii off ->
  decode_offset (filter is_base64_char off) = decode_offset off.
Proof.
  intros Ha. unfold decode_offset.
  rewrite (str_encode_ascii _ Ha).
  rewrite (str_encode_ascii _ (Forall_filter _ _ _ Ha)). cbn [bind].
  rewrite (urlsafe_b64decode_filter off (ascii_is_byte _ Ha)). reflexivity.
Qed.

Lemma decode_offset_skips_foreign_characters_witness :
  decode_offset (filter is_base64_char (lit "eyJx Ijog!Imxv,ZmkiLCAicGFn ZVRva2VuIjogIlQifQ=="))
  = decode_offset (lit "eyJx Ijog!Imxv,ZmkiLCAicGFn ZVRva2VuIjogIlQifQ==").
Proof.
  apply decode_offset_skips_foreign_characters.
  unfold lit. simpl. repeat (apply Forall_cons; [unfold is_ascii; lia |]).
  apply Forall_nil.
Defined.

(** ** The cards *)

(** X13: the thumbnail of a card is the [url] of the medium thumbnail when
    the snippet has a medium entry, even one without [url] (the card then
    has no thumbnail, whatever the default entry holds); without a medium
    entry it is the [url] of the default entry; without either, or without
    [thumbnails], the card has no thumbnail. *)
Theorem thumbnail_fallback (it : Item) (card : InlineQueryResultArticle) :
  make_result it = Some card ->
  (forall ths m, thumbnails (snippet it) = Some ths -> medium ths = Some m ->
                 thumb_url card = url m)
  /\ (forall ths d, thumbnails (snippet it) = Some ths -> medium ths = None ->
                    default ths = Some d -> thumb_url card = url d)
  /\ (forall ths, thumbnails (snippet it) = Some ths -> medium ths = None ->
                  default ths = None -> thumb_url card = None)
  /\ (thumbnails (snippet it) = None -> thumb_url card = None).
Proof.
  unfold make_result.
  destruct (or_empty (videoId (item_id it))) as [| c v]; cbn [is_nil];
    [discriminate |].
  intros H. inversion H; subst; clear H. cbn [thumb_url].
  repeat split.
  - intros ths m H1 H2. rewrite H1. cbn [get_or]. rewrite H2. reflexivity.
  - intros ths d H1 H2 H3. rewrite H1. cbn [get_or]. rewrite H2, H3. reflexivity.
  - intros ths H1 H2 H3. rewrite H1. cbn [get_or]. rewrite H2, H3. reflexivity.
  - intros H1. rewrite H1. reflexivity.
Qed.

Lemma thumbnail_fallback_witness :
  exists card,
    make_result
      {| item_id := {| videoId := Some (lit "abc123") |};
         snippet :=
           {| snippet_title := None; channelTitle := None;
              snippet_description := None;
              thumbnails :=
                Some {| medium := Some {| url := None |};
                        default := Some {| url := Some (lit "https://i.ytimg.com/d.jpg") |} |} |} |}
    = Some card
    /\ thumb_url card = None.
Proof.
  eexists. split; [reflexivity |].
  match goal with
  | |- thumb_url ?c = _ =>
      destruct (thumbnail_fallback
                  {| item_id := {| videoId := Some (lit "abc123") |};
                     snippet :=
                       {| snippet_title := None; channelTitle := None;
                          snippet_description := None;
                          thumbnails :=
                            Some {| medium := Some {| url := None |};
                                    default := Some {| url := Some (lit "https://i.ytimg.com/d.jpg") |} |} |} |}
                  c eq_refl) as (H1 & _)
  end.
  apply (H1 _ {| url := None |} eq_refl eq_refl).
Defined.

Lemma html_escape_app (a b : pystr) :
  html_escape (a ++ b) = html_escape a ++ html_escape b.
Proof.
  rewrite !html_escape_flat_map. apply flat_map_app.
Qed.

Lemma html_escape_plain (s : pystr) :
  Forall not_markup s -> Forall (fun c => c <> 38) s -> html_escape s = s.
Proof.
  intros Hm Ha. rewrite html_escape_flat_map.
  induction s as [| c s IH]; [reflexivity |].
  inversion Hm as [| ? ? (H60 & H62 & H34 & H39) Hm']; subst.
  inversion Ha as [| ? ? H38 Ha']; subst.
  cbn [flat_map]. rewrite (IH Hm' Ha'). unfold html_escape_char.
  rewrite (proj2 (Z.eqb_neq c 38) H38), (proj2 (Z.eqb_neq c 60) H60),
    (proj2 (Z.eqb_neq c 62) H62), (proj2 (Z.eqb_neq c 34) H34),
    (proj2 (Z.eqb_neq c 39) H39).
  reflexivity.
Qed.

Lemma make_result_fields (it : Item) (card : InlineQueryResultArticle) :
  make_result it = Some card ->
  message_text (input_message_content card)
  = html_escape (title card ++ [10] ++ lit "https://youtu.be/" ++ article_id card)
  /\ reply_markup card
     = [[ {| button_text := lit "Open on YouTube";
             button_url := lit "https://youtu.be/" ++ article_id card |} ]].
Proof.
  unfold make_result.
  destruct (or_empty (videoId (item_id it))) as [| c v]; cbn [is_nil];
    [discriminate |].
  intros H. inversion H; subst; clear H.
  cbn [message_text input_message_content title article_id reply_markup].
  split; reflexivity.
Qed.

(** X14: the inserted message is the escaped title, a newline, and the URL
    [https://youtu.be/] followed by the escaped video id; the card has one
    row with one button, "Open on YouTube", whose URL is
    [https://youtu.be/<videoId>] unescaped.  So when the video id holds none
    of the five characters that [html.escape] rewrites, the message ends
    with exactly the URL of the button. *)
Theorem message_and_button (it : Item) (card : InlineQueryResultArticle) :
  make_result it = Some card ->
  message_text (input_message_content card)
  = html_escape (title card) ++ [10] ++ lit "https://youtu.be/"
    ++ html_escape (article_id card)
  /\ reply_markup card
     = [[ {| button_text := lit "Open on YouTube";
             button_url := lit "https://youtu.be/" ++ article_id card |} ]]
  /\ (Forall not_markup (article_id card) ->
      Forall (fun c => c <> 38) (article_id card) ->
      message_text (input_message_content card)
      = html_escape (title card) ++ [10] ++ lit "https://youtu.be/"
        ++ article_id card).
Proof.
  intros H. destruct (make_result_fields it card H) as [Hm Hk].
  assert (Hm' : message_text (input_message_content card)
                = html_escape (title card) ++ [10] ++ lit "https://youtu.be/"
                  ++ html_escape (article_id card)).
  { rewrite Hm, !html_escape_app. reflexivity. }
  split; [exact Hm' |]. split; [exact Hk |].
  intros H1 H2. rewrite Hm', (html_escape_plain _ H1 H2). reflexivity.
Qed.

Lemma message_and_button_witness :
  exists card,
    make_result (example_item (Some (lit "abc-12_3")) (Some (lit "Tom & Jerry")))
    = Some card
    /\ message_text (input_message_content card)
       = lit "Tom &amp; Jerry" ++ [10] ++ lit "https://youtu.be/abc-12_3".
Proof.
  eexists. split; [reflexivity |].
  match goal with
  | |- message_text (input_message_content ?c) = _ =>
      destruct (message_and_button
                  (example_item (Some (lit "abc-12_3")) (Some (lit "Tom & Jerry")))
                  c eq_refl) as (_ & _ & H3)
  end.
  rewrite H3.
  - vm_compute. reflexivity.
  - unfold lit. simpl.
    repeat (apply Forall_cons; [unfold not_markup; lia |]). apply Forall_nil.
  - unfold lit. simpl. repeat (apply Forall_cons; [lia |]). apply Forall_nil.
Defined.

(** ** Starting the process *)

(** X15: the module loads its two credentials exactly when both environment
    variables are set to non-empty strings; when either is unset or set to
    the empty string the process exits with the message that names both
    variables. *)
Theorem credentials_required (environ : pystr -> option pystr) :
  (forall t k,
      load_credentials environ = Loaded t k
      <-> (environ (lit "TELEGRAM_TOKEN") = Some t /\ t <> []
           /\ environ (lit "YOUTUBE_API_KEY") = Some k /\ k <> []))
  /\ ((or_empty (environ (lit "TELEGRAM_TOKEN")) = []
       \/ or_empty (environ (lit "YOUTUBE_API_KEY")) = [])
      <-> load_credentials environ
          = SystemExit
              (lit "Set TELEGRAM_TOKEN and YOUTUBE_API_KEY as environment variables.")).
Proof.
  unfold load_credentials.
  destruct (environ (lit "TELEGRAM_TOKEN")) as [[| a t'] |];
    destruct (environ (lit "YOUTUBE_API_KEY")) as [[| b k'] |];
    cbn [py_not is_nil orb or_empty get_or]; split;
    try (intros t k; split; [discriminate | intros (H1 & H2 & H3 & H4); congruence]);
    try (split; [reflexivity | intros _; auto]).
  - intros t k. split.
    + intros H. inversion H; subst. repeat split; discriminate.
    + intros (H1 & _ & H3 & _). congruence.
  - split; [intros [H | H]; discriminate | discriminate].
Qed.

(** ** What the handler depends on *)

(** X16: white space around the query does not matter: a request whose
    query is already trimmed is handled exactly like the request with the
    untrimmed query. *)
Theorem query_padding_is_irrelevant
  (key : pystr) (net : pystr -> list (pystr * pyval) -> Z -> res Response)
  (s : pystr) (off : option pystr) :
  inline_query_handler key net {| query := Some (str_strip s); offset := off |}
  = inline_query_handler key net {| query := Some s; offset := off |}.
Proof.
  unfold inline_query_handler. cbn [query offset or_empty get_or].
  rewrite str_strip_idempotent. reflexivity.
Qed.

(** X17: the handler consults the network through one request only: two
    networks that give the same response to the GET of the search URL with
    the parameters of the request (trimmed query, resolved page token,
    [maxResults] 10) and timeout 8 lead to the same effects and result. *)
Theorem handler_depends_on_one_response
  (key : pystr) (net1 net2 : pystr -> list (pystr * pyval) -> Z -> res Response)
  (iq : InlineQuery) :
  net1 YOUTUBE_SEARCH_URL
    (search_params key (str_strip (or_empty (query iq)))
       (resolve_page_token (str_strip (or_empty (query iq)))
          (or_empty (offset iq))) RESULTS_PER_PAGE) 8
  = net2 YOUTUBE_SEARCH_URL
      (search_params key (str_strip (or_empty (query iq)))
         (resolve_page_token (str_strip (or_empty (query iq)))
            (or_empty (offset iq))) RESULTS_PER_PAGE) 8 ->
  inline_query_handler key net1 iq = inline_query_handler key net2 iq.
Proof.
  intros H. unfold inline_query_handler.
  destruct (is_nil (str_strip (or_empty (query iq)))); [reflexivity |].
  rewrite !youtube_search_eq, H. reflexivity.
Qed.

Lemma handler_depends_on_one_response_witness :
  inline_query_handler example_key
    (fun u p t => if str_eqb u YOUTUBE_SEARCH_URL then net_status 503 u p t
                  else net_down u p t)
    {| query := Some (lit "cats"); offset := None |}
  = inline_query_handler example_key (net_status 503)
      {| query := Some (lit "cats"); offset := None |}.
Proof.
  apply handler_depends_on_one_response. reflexivity.
Defined.
